(** * GuidanceNet: construction and forward wiring

    A shallow embedding of [modulus/models/diffusion/guidance.py].

    The file assembles layers that live elsewhere (positional embedding,
    linear, convolution, group normalisation, U-Net block).  A layer is
    represented by the arguments it was built with together with the
    position at which it was built; what a layer computes on a tensor is
    the business of the tensor framework and enters through the
    [Framework] class below; whether a layer's constructor accepts its
    arguments is the business of the layer library and enters through the
    [LayerLibrary] class.  Python objects are attribute stores, Python
    exceptions are values of [exn], and every statement that can raise is
    run in a state-and-error monad. *)

From Stdlib Require Import ZArith QArith List Lia Ascii String.
From stdpp Require Import base strings gmap list pretty.

Set Default Proof Using "Type".

(** ** Exceptions and results *)

Inductive exn : Type :=
| AttributeError (name : string)
| KeyError (key : string)
| TypeError (msg : string)
| NotImplementedError (msg : string)
| ZeroDivisionError
| RuntimeError (msg : string)
| FrameworkError (msg : string).

Inductive result (A : Type) : Type :=
| Ok (a : A)
| Raise (e : exn).
Arguments Ok {A} a.
Arguments Raise {A} e.

(** State-and-error monad: the state survives an exception, as the
    attributes already assigned to [self] survive a raising statement. *)
Definition SE (S A : Type) : Type := S -> S * result A.

Definition ret {S A} (a : A) : SE S A := fun s => (s, Ok a).
Definition raise {S A} (e : exn) : SE S A := fun s => (s, Raise e).
Definition bind {S A B} (m : SE S A) (k : A -> SE S B) : SE S B :=
  fun s => match m s with
           | (s', Ok a) => k a s'
           | (s', Raise e) => (s', Raise e)
           end.
Definition lift {S A} (r : result A) : SE S A := fun s => (s, r).

Notation "'let*' x ':=' m 'in' k" := (bind m (fun x => k))
  (at level 10, x name, m at level 100, k at level 200).
Notation "m ';;;' k" := (bind m (fun _ => k))
  (at level 100, k at level 200, right associativity).

Fixpoint foldM {S A B} (f : A -> B -> SE S A) (a : A) (l : list B) : SE S A :=
  match l with
  | [] => ret a
  | b :: l' => let* a' := f a b in foldM f a' l'
  end.

(** ** Layers *)

(** The keyword dictionaries [init], [init_zero] and the inline arguments of
    the label projection (lines 131-136 and 168-169). *)
Inductive InitScheme : Type :=
| init               (* kaiming_uniform, weight sqrt(1/3), bias sqrt(1/3) *)
| init_zero          (* kaiming_uniform, weight 0, bias 0 *)
| init_label (label_dim : Z)  (* kaiming_normal, weight sqrt(label_dim) *)
| init_default.      (* nothing passed *)

(** [block_kwargs] (lines 137-143). *)
Record BlockKwargs : Type := {
  bk_emb_channels : Z;
  bk_channels_per_head : Z;
  bk_dropout : Q;
  bk_init : InitScheme;
  bk_init_zero : InitScheme
}.

Inductive LayerKind : Type :=
| PositionalEmbedding (num_channels : Z)
| Linear (in_features out_features : Z) (bias : bool) (ini : InitScheme)
| Conv2d (cin cout kernel : Z) (ini : InitScheme)
| UNetBlock (cin cout : Z) (down attention : bool) (kw : BlockKwargs)
| GroupNorm (num_channels : Z).

(** A built layer: [lid] is the number of layers built before it, so two
    layers built with equal arguments stay distinct objects with their own
    parameters. *)
Record Layer : Type := { lid : nat; kind : LayerKind }.

Definition isinstance_UNetBlock (l : Layer) : bool :=
  match kind l with UNetBlock _ _ _ _ _ => true | _ => false end.

(** [block.in_channels] and [block.out_channels] of an encoder stage. *)
Definition layer_in_channels (l : Layer) : option Z :=
  match kind l with
  | Conv2d i _ _ _ => Some i
  | UNetBlock i _ _ _ _ => Some i
  | _ => None
  end.

Definition layer_out_channels (l : Layer) : option Z :=
  match kind l with
  | Conv2d _ o _ _ => Some o
  | UNetBlock _ o _ _ _ => Some o
  | _ => None
  end.

(** ** torch.nn.ModuleDict

    An insertion-ordered dictionary of modules: assigning to a key that is
    present replaces the module and keeps the key's position, assigning to a
    new key appends. *)
Abbreviation ModuleDict := (list (string * Layer)).

Fixpoint md_set (k : string) (v : Layer) (d : ModuleDict) : ModuleDict :=
  match d with
  | [] => [(k, v)]
  | (k', v') :: d' =>
      if String.eqb k k' then (k, v) :: d' else (k', v') :: md_set k v d'
  end.

Fixpoint md_get (k : string) (d : ModuleDict) : option Layer :=
  match d with
  | [] => None
  | (k', v') :: d' => if String.eqb k k' then Some v' else md_get k d'
  end.

Definition md_keys (d : ModuleDict) : list string := map fst d.
Definition md_values (d : ModuleDict) : list Layer := map snd d.

(** ** Python values held in attributes *)

(** [MetaData] (lines 37-52). *)
Record MetaData : Type := {
  name : string;
  jit : bool;
  cuda_graphs : bool;
  amp_cpu : bool;
  amp_gpu : bool;
  torch_fx : bool;
  bf16 : bool;
  onnx : bool;
  func_torch : bool;
  auto_grad : bool
}.

Definition MetaData_default : MetaData := {|
  name := "GuidanceNet";
  jit := false;
  cuda_graphs := false;
  amp_cpu := false;
  amp_gpu := true;
  torch_fx := false;
  bf16 := true;
  onnx := false;
  func_torch := false;
  auto_grad := false
|}.

#[warnings="-register-all"]
Inductive Value : Type :=
| VNone
| VBool (b : bool)
| VInt (z : Z)
| VFloat (q : Q)
| VStr (s : string)
| VMeta (m : MetaData)
| VLayer (l : Layer)
| VTuple (items : list Value)
| VModuleDict (d : ModuleDict).

(** [torch.typename], as far as the error messages below need it. *)
Definition typename (v : Value) : string :=
  match v with
  | VNone => "NoneType"
  | VBool _ => "bool"
  | VInt _ => "int"
  | VFloat _ => "float"
  | VStr _ => "str"
  | VMeta _ => "MetaData"
  | VLayer _ => "Module"
  | VTuple _ => "tuple"
  | VModuleDict _ => "ModuleDict"
  end.

(** Python truthiness. *)
Definition truthy (v : Value) : bool :=
  match v with
  | VNone => false
  | VBool b => b
  | VInt z => negb (Z.eqb z 0)
  | VFloat q => negb (Qeq_bool q 0)
  | VStr s => negb (String.eqb s "")
  | VMeta _ => true
  | VLayer _ => true
  | VTuple items => negb (Nat.eqb (length items) 0)
  | VModuleDict d => negb (Nat.eqb (length d) 0)
  end.

Definition is_not_None (v : Value) : bool :=
  match v with VNone => false | _ => true end.

(** A number usable in a comparison with a float tensor. *)
Definition as_number (v : Value) : result Q :=
  match v with
  | VBool b => Ok (if b then 1 else 0)%Q
  | VInt z => Ok (inject_Z z)
  | VFloat q => Ok q
  | _ => Raise (TypeError ("unsupported operand type: " +:+ typename v))
  end.

Definition as_int (v : Value) : result Z :=
  match v with
  | VBool b => Ok (if b then 1 else 0)%Z
  | VInt z => Ok z
  | _ => Raise (TypeError ("an integer is required, got " +:+ typename v))
  end.

(** ** Objects *)

(** The attributes that resolve on [self]. *)
Abbreviation Obj := (gmap string Value).

Definition getattr_ (self : Obj) (attr : string) : result Value :=
  match self !! attr with
  | Some v => Ok v
  | None => Raise (AttributeError attr)
  end.

(** [d[key]] on a value. *)
Definition getitem_ (d : Value) (key : string) : result Value :=
  match d with
  | VModuleDict tbl =>
      match md_get key tbl with
      | Some l => Ok (VLayer l)
      | None => Raise (KeyError key)
      end
  | _ => Raise (TypeError (typename d +:+ " object is not subscriptable"))
  end.

(** ** Construction *)

(** The arguments of [GuidanceNet.__init__] (lines 111-126). *)
Record Config : Type := {
  img_resolution : Z;
  in_channels : Z;
  out_channels : Z;
  label_dim : Z;
  augment_dim : Z;
  model_channels : Z;
  channel_mult : list Z;
  channel_mult_emb : Z;
  num_blocks : Z;
  attn_resolutions : list Z;
  dropout : Q;
  label_dropout : Q;
  pool : string
}.

(** A call that passes the three required arguments only. *)
Definition default_config (img_resolution in_channels out_channels : Z) : Config := {|
  img_resolution := img_resolution;
  in_channels := in_channels;
  out_channels := out_channels;
  label_dim := 0;
  augment_dim := 0;
  model_channels := 192;
  channel_mult := [1; 2; 3; 4]%Z;
  channel_mult_emb := 4;
  num_blocks := 3;
  attn_resolutions := [32; 16; 8]%Z;
  dropout := 0.10%Q;
  label_dropout := 0%Q;
  pool := "spatial"
|}.

(** The documented example with [pool="avg"] added. *)
Definition avg_config : Config := {|
  img_resolution := 16;
  in_channels := 2;
  out_channels := 2;
  label_dim := 0;
  augment_dim := 0;
  model_channels := 192;
  channel_mult := [1; 2; 3; 4]%Z;
  channel_mult_emb := 4;
  num_blocks := 3;
  attn_resolutions := [32; 16; 8]%Z;
  dropout := 0.10%Q;
  label_dropout := 0%Q;
  pool := "avg"
|}.

(** ** The layer library

    [PositionalEmbedding], [Linear], [Conv2d], [UNetBlock], [GroupNorm] and
    [torch.nn.ModuleDict] are imported by the source, not defined in it.
    Two things the constructor depends on are therefore parameters:
    whether a layer's constructor raises on the arguments it is called
    with, and with what ([layer_raises]; the weight initialisation divides
    by the fan-in, for one), and the exception with which a module
    dictionary turns down a value that is not a module ([not_a_module]). *)
Class LayerLibrary : Type := {
  layer_raises : LayerKind -> option exn;
  not_a_module : Value -> exn
}.

(** One library among those the parameter ranges over: it turns down every
    constructor call with a size that is zero (as the weight initialisation
    does when it divides by a fan-in of zero) or negative, and its module
    dictionary names the type of what it turns down.  The concrete runs
    below use it; the theorems hold for every library. *)
Definition size_error (sizes : list Z) : option exn :=
  if existsb (Z.eqb 0) sizes then Some ZeroDivisionError
  else if existsb (fun z => Z.ltb z 0) sizes
       then Some (RuntimeError "negative dimensions are not allowed")
       else None.

Definition strict_sizes : LayerLibrary := {|
  layer_raises k :=
    match k with
    | PositionalEmbedding _ => None
    | Linear i o _ _ => size_error [i; o]
    | Conv2d i o kernel _ => size_error [i; o; kernel]
    | UNetBlock i o _ _ kw => size_error [i; o; bk_emb_channels kw]
    | GroupNorm n => size_error [n]
    end;
  not_a_module v := TypeError (typename v +:+ " is not a Module subclass")
|}.

(** State of a running constructor: the attributes of [self] and the number
    of layers built so far. *)
Record ISt : Type := { attrs : Obj; nbuilt : nat }.

Abbreviation Init := (SE ISt).

Definition setattr (attr : string) (v : Value) : Init unit :=
  fun s => ({| attrs := <[attr := v]> (attrs s); nbuilt := nbuilt s |}, Ok tt).

Definition getattr (attr : string) : Init Value :=
  fun s => (s, getattr_ (attrs s) attr).

(** Modelled from the spec: the base class [Module] is not part of the
    source; the spec calls it "a generic module base class" that receives
    "a metadata descriptor", and the forward pass relies on its [training]
    flag, which a fresh module has set.  Whatever else resolves on the
    object before the body of [__init__] runs is the [cls] argument of
    [construct] below. *)
Definition Module_init (meta : MetaData) : Init unit :=
  setattr "training" (VBool true) ;;;
  setattr "meta" (VMeta meta).

Section Construction.

Context `{LL : LayerLibrary}.

(** A constructor call of the layer library: it raises what the library
    raises on these arguments, and builds the layer otherwise. *)
Definition new_layer (k : LayerKind) : Init Layer :=
  fun s => match layer_raises k with
           | Some e => (s, Raise e)
           | None => ({| attrs := attrs s; nbuilt := S (nbuilt s) |},
                      Ok {| lid := nbuilt s; kind := k |})
           end.

(** [self.<attr>[key] = v]: the module dictionary is mutated in place;
    [ModuleDict.__setitem__] goes through [add_module], which refuses
    anything that is not a module. *)
Definition setitem (attr key : string) (v : Value) : Init unit :=
  let* d := getattr attr in
  match d with
  | VModuleDict tbl =>
      match v with
      | VLayer l => setattr attr (VModuleDict (md_set key l tbl))
      | _ => raise (not_a_module v)
      end
  | _ => raise (TypeError (typename d +:+ " object does not support item assignment"))
  end.

Definition block_kwargs (c : Config) : BlockKwargs := {|
  bk_emb_channels := model_channels c * channel_mult_emb c;
  bk_channels_per_head := 64;
  bk_dropout := dropout c;
  bk_init := init;
  bk_init_zero := init_zero
|}.

(** Lines 145-173. *)
Definition init_mapping (c : Config) : Init unit :=
  let emb_channels := (model_channels c * channel_mult_emb c)%Z in
  (let* l := new_layer (PositionalEmbedding (model_channels c)) in
   setattr "map_noise" (VLayer l)) ;;;
  (let* v := (if Z.eqb (augment_dim c) 0 then ret VNone
              else let* l := new_layer (Linear (augment_dim c) (model_channels c) false init_zero) in
                   ret (VLayer l)) in
   setattr "map_augment" v) ;;;
  (let* l := new_layer (Linear (model_channels c) emb_channels true init) in
   setattr "map_layer0" (VLayer l)) ;;;
  (let* l := new_layer (Linear emb_channels emb_channels true init) in
   setattr "map_layer1" (VLayer l)) ;;;
  (let* v := (if Z.eqb (label_dim c) 0 then ret VNone
              else let* l := new_layer (Linear (label_dim c) emb_channels false (init_label (label_dim c))) in
                   ret (VLayer l)) in
   setattr "map_label" v).

(** The keys of the encoder table (lines 183, 187 and 193). *)
Definition key_conv (res : Z) : string := pretty res +:+ "x" +:+ pretty res +:+ "_conv".
Definition key_down (res : Z) : string := pretty res +:+ "x" +:+ pretty res +:+ "_down".
Definition key_block (res : Z) (idx : nat) : string :=
  pretty res +:+ "x" +:+ pretty res +:+ "_block" +:+ pretty idx.

Definition range (n : Z) : list nat := seq 0 (Z.to_nat n).
Definition enumerate {A} (l : list A) : list (nat * A) := combine (seq 0 (length l)) l.
Definition Z_in (x : Z) (l : list Z) : bool := existsb (Z.eqb x) l.

(** Body of the inner loop (lines 190-198): returns the new [cout]. *)
Definition enc_block (c : Config) (res mult : Z) (cout : Z) (idx : nat) : Init Z :=
  let cin := cout in
  let cout := (model_channels c * mult)%Z in
  let* l := new_layer (UNetBlock cin cout false (Z_in res (attn_resolutions c)) (block_kwargs c)) in
  setitem "enc" (key_block res idx) (VLayer l) ;;;
  ret cout.

(** Body of the outer loop (lines 178-198). *)
Definition enc_level (c : Config) (cout : Z) (lm : nat * Z) : Init Z :=
  let level := fst lm in
  let mult := snd lm in
  let res := (img_resolution c ≫ Z.of_nat level)%Z in
  let* cout :=
    (if Nat.eqb level 0 then
       let cin := cout in
       let cout := (model_channels c * mult)%Z in
       let* l := new_layer (Conv2d cin cout 3 init) in
       setitem "enc" (key_conv res) (VLayer l) ;;;
       ret cout
     else
       let* l := new_layer (UNetBlock cout cout true false (block_kwargs c)) in
       setitem "enc" (key_down res) (VLayer l) ;;;
       ret cout) in
  foldM (enc_block c res mult) cout (range (num_blocks c)).

(** [block.out_channels for block in self.enc.values()] (line 199). *)
Fixpoint out_channels_list (ls : list Layer) : result (list Z) :=
  match ls with
  | [] => Ok []
  | l :: ls' =>
      match layer_out_channels l with
      | None => Raise (AttributeError "out_channels")
      | Some o =>
          match out_channels_list ls' with
          | Ok os => Ok (o :: os)
          | Raise e => Raise e
          end
      end
  end.

Definition values_ (d : Value) : result (list Layer) :=
  match d with
  | VModuleDict tbl => Ok (md_values tbl)
  | _ => Raise (AttributeError "values")
  end.

(** Lines 175-199. *)
Definition init_encoder (c : Config) : Init unit :=
  setattr "enc" (VModuleDict []) ;;;
  let cout := in_channels c in
  let* cout := foldM (enc_level c) cout (enumerate (channel_mult c)) in
  let* enc := getattr "enc" in
  let* blocks := lift (values_ enc) in
  let* skips := lift (out_channels_list blocks) in
  ret tt.

(** Lines 201-208. *)
Definition init_pooling (c : Config) : Init unit :=
  if String.eqb (pool c) "spatial" then
    setattr "out" (VModuleDict []) ;;;
    (let* fs := getattr "_feature_size" in
     let* fs := lift (as_int fs) in
     let* l := new_layer (Linear fs 2048 true init_default) in
     setitem "out" "linear_in" (VLayer l)) ;;;
    (let* l := new_layer (GroupNorm 2048) in
     setitem "out" "group_norm" (VTuple [VLayer l])) ;;;
    (let* oc := getattr "out_channels" in
     let* oc := lift (as_int oc) in
     let* l := new_layer (Linear 2048 oc true init_default) in
     setitem "out" "linear_out" (VLayer l))
  else
    raise (NotImplementedError ("Unexpected " +:+ pool c +:+ " pooling")).

(** [GuidanceNet.__init__] (lines 111-208). *)
Definition __init__ (c : Config) : Init unit :=
  Module_init MetaData_default ;;;
  setattr "label_dropout" (VFloat (label_dropout c)) ;;;
  setattr "pool" (VStr (pool c)) ;;;
  init_mapping c ;;;
  init_encoder c ;;;
  init_pooling c.

(** [GuidanceNet(...)]: the constructor run on a fresh object.  [cls] holds
    what already resolves on the object before [__init__] runs (the class
    attributes of the class being instantiated); for [GuidanceNet] itself
    the source declares none. *)
Definition construct (cls : Obj) (c : Config) : ISt * result unit :=
  __init__ c {| attrs := cls; nbuilt := 0 |}.

Definition GuidanceNet (c : Config) : ISt * result unit := construct ∅ c.

End Construction.

(** ** The tensor framework

    What the forward pass asks of the tensor library and of the sibling
    layer library.  Calls can raise (shape mismatch and the like); the
    U-Net block and the functional dropout may draw from the random
    generator, [torch_rand n] is [torch.rand([n, 1])]. *)
Class Framework : Type := {
  Tensor : Type;
  Rng : Type;
  batch_size : Tensor -> nat;
  torch_rand : nat -> Rng -> Rng * list Q;
  call_layer : Layer -> option Tensor -> result Tensor;
  call_block : Layer -> Tensor -> Tensor -> SE Rng Tensor;
  silu : Tensor -> Tensor;
  tensor_add : Tensor -> Tensor -> result Tensor;
  tensor_mul_mask : Tensor -> list bool -> result Tensor;
  F_dropout : Tensor -> Value -> Value -> SE Rng Tensor
}.

(** ** Forward pass *)

Section Forward.
Context `{FW : Framework}.

(** [f(arg)] for an attribute value [f]. *)
Definition call_value (f : Value) (arg : option Tensor) : result Tensor :=
  match f with
  | VLayer l => call_layer l arg
  | _ => Raise (TypeError (typename f +:+ " object is not callable"))
  end.

(** [torch.rand([x.shape[0], 1]) >= p], one boolean per sample. *)
Definition label_mask (p : Q) (draws : list Q) : list bool :=
  map (fun u => Qle_bool p u) draws.

Definition rand (n : nat) : SE Rng (list Q) :=
  fun g => (fst (torch_rand n g), Ok (snd (torch_rand n g))).

(** Lines 213-214. *)
Definition augment_step (self : Obj) (augment_labels : option Tensor) (emb : Tensor)
  : SE Rng Tensor :=
  let* map_augment := lift (getattr_ self "map_augment") in
  if is_not_None map_augment && bool_decide (augment_labels ≠ None) then
    let* map_augment := lift (getattr_ self "map_augment") in
    let* a := lift (call_value map_augment augment_labels) in
    lift (tensor_add emb a)
  else ret emb.

(** [self.training and self.label_dropout], as a condition (line 219). *)
Definition label_dropout_active (self : Obj) : SE Rng bool :=
  let* training := lift (getattr_ self "training") in
  if truthy training then
    let* p := lift (getattr_ self "label_dropout") in
    ret (truthy p)
  else ret false.

(** Lines 220-222. *)
Definition label_dropout_step (self : Obj) (x : Tensor) (tmp : option Tensor)
  : SE Rng (option Tensor) :=
  let* draws := rand (batch_size x) in
  let* p := lift (getattr_ self "label_dropout") in
  let* p := lift (as_number p) in
  match tmp with
  | None => raise (AttributeError "dtype")
  | Some t =>
      let* t' := lift (tensor_mul_mask t (label_mask p draws)) in
      ret (Some t')
  end.

(** Lines 217-223. *)
Definition label_step (self : Obj) (x : Tensor) (class_labels : option Tensor)
    (emb : Tensor) : SE Rng Tensor :=
  let* map_label := lift (getattr_ self "map_label") in
  if is_not_None map_label then
    let tmp := class_labels in
    let* active := label_dropout_active self in
    let* tmp := (if active then label_dropout_step self x tmp else ret tmp) in
    let* map_label := lift (getattr_ self "map_label") in
    let* c := lift (call_value map_label tmp) in
    lift (tensor_add emb c)
  else ret emb.

(** Lines 211-224. *)
Definition forward_mapping (self : Obj) (x noise_labels : Tensor)
    (class_labels augment_labels : option Tensor) : SE Rng Tensor :=
  let* map_noise := lift (getattr_ self "map_noise") in
  let* emb := lift (call_value map_noise (Some noise_labels)) in
  let* emb := augment_step self augment_labels emb in
  let* map_layer0 := lift (getattr_ self "map_layer0") in
  let* emb := lift (call_value map_layer0 (Some emb)) in
  let emb := silu emb in
  let* map_layer1 := lift (getattr_ self "map_layer1") in
  let* emb := lift (call_value map_layer1 (Some emb)) in
  let* emb := label_step self x class_labels emb in
  ret (silu emb).

(** Body of the encoder loop (lines 229-230): the running feature map and
    the list of skips. *)
Definition enc_step (emb : Tensor) (acc : Tensor * list Tensor) (block : Layer)
  : SE Rng (Tensor * list Tensor) :=
  let* x := (if isinstance_UNetBlock block then call_block block (fst acc) emb
             else lift (call_layer block (Some (fst acc)))) in
  ret (x, snd acc ++ [x]).

(** Lines 226-230. *)
Definition forward_encoder (self : Obj) (x emb : Tensor) : SE Rng Tensor :=
  let skips := [] in
  let* enc := lift (getattr_ self "enc") in
  let* blocks := lift (values_ enc) in
  let* acc := foldM (enc_step emb) (x, skips) blocks in
  ret (fst acc).

(** [self.out[key](x)]. *)
Definition call_out (self : Obj) (key : string) (x : Tensor) : SE Rng Tensor :=
  let* out := lift (getattr_ self "out") in
  let* f := lift (getitem_ out key) in
  lift (call_value f (Some x)).

(** Lines 232-240. *)
Definition forward_pooling (self : Obj) (x : Tensor) : SE Rng Tensor :=
  let* x := call_out self "linear_in" x in
  let* x := call_out self "group_norm" x in
  let x := silu x in
  let* p := lift (getattr_ self "dropout") in
  let* training := lift (getattr_ self "training") in
  let* x := F_dropout x p training in
  call_out self "linear_out" x.

(** [GuidanceNet.forward] (lines 210-240). *)
Definition forward (self : Obj) (x noise_labels : Tensor)
    (class_labels augment_labels : option Tensor) : SE Rng Tensor :=
  let* emb := forward_mapping self x noise_labels class_labels augment_labels in
  let* x := forward_encoder self x emb in
  forward_pooling self x.

(** A call [model(x, noise_labels, *rest)] with positional arguments only,
    bound against the signature of line 210: [class_labels] has no default,
    [augment_labels] defaults to [None]. *)
Definition forward_call (self : Obj) (x noise_labels : Tensor)
    (rest : list (option Tensor)) : SE Rng Tensor :=
  match rest with
  | [] => raise (TypeError "forward() missing 1 required positional argument: 'class_labels'")
  | [class_labels] => forward self x noise_labels class_labels None
  | [class_labels; augment_labels] => forward self x noise_labels class_labels augment_labels
  | _ => raise (TypeError "forward() takes from 4 to 5 positional arguments")
  end.

End Forward.

(** ** The encoder loop as a function

    The same loop with its three locals made explicit: the table, the
    running channel count [cout] and the number of layers built.  [ins] is
    the table update: [md_set] gives the table the constructor leaves in
    [self.enc], [md_snoc] records every stage in the order it is built. *)
Record EncSt : Type := { e_tbl : ModuleDict; e_cout : Z; e_n : nat }.

Definition md_snoc (k : string) (v : Layer) (d : ModuleDict) : ModuleDict := d ++ [(k, v)].

Section EncoderLoop.
Variable ins : string -> Layer -> ModuleDict -> ModuleDict.
Variable c : Config.

Definition loop_block (res mult : Z) (st : EncSt) (idx : nat) : EncSt :=
  let cin := e_cout st in
  let cout := (model_channels c * mult)%Z in
  {| e_tbl := ins (key_block res idx)
                {| lid := e_n st;
                   kind := UNetBlock cin cout false (Z_in res (attn_resolutions c)) (block_kwargs c) |}
                (e_tbl st);
     e_cout := cout;
     e_n := S (e_n st) |}.

Definition loop_head (st : EncSt) (lm : nat * Z) : EncSt :=
  let res := (img_resolution c ≫ Z.of_nat (fst lm))%Z in
  if Nat.eqb (fst lm) 0 then
    {| e_tbl := ins (key_conv res)
                  {| lid := e_n st;
                     kind := Conv2d (e_cout st) (model_channels c * snd lm) 3 init |}
                  (e_tbl st);
       e_cout := (model_channels c * snd lm)%Z;
       e_n := S (e_n st) |}
  else
    {| e_tbl := ins (key_down res)
                  {| lid := e_n st;
                     kind := UNetBlock (e_cout st) (e_cout st) true false (block_kwargs c) |}
                  (e_tbl st);
       e_cout := e_cout st;
       e_n := S (e_n st) |}.

Definition loop_level (st : EncSt) (lm : nat * Z) : EncSt :=
  let res := (img_resolution c ≫ Z.of_nat (fst lm))%Z in
  fold_left (loop_block res (snd lm)) (range (num_blocks c)) (loop_head st lm).

Definition loop_enc (st : EncSt) : EncSt :=
  fold_left loop_level (enumerate (channel_mult c)) st.

End EncoderLoop.

(** The keys of the stages, in the order the stages are built. *)
Definition level_keys (c : Config) (lm : nat * Z) : list string :=
  let res := (img_resolution c ≫ Z.of_nat (fst lm))%Z in
  (if Nat.eqb (fst lm) 0 then key_conv res else key_down res)
    :: map (key_block res) (range (num_blocks c)).

Definition stage_keys (c : Config) : list string :=
  flat_map (level_keys c) (enumerate (channel_mult c)).

(** The number of layers the mapping section builds. *)
Definition mapping_layers (c : Config) : nat :=
  3 + (if Z.eqb (augment_dim c) 0 then 0 else 1) + (if Z.eqb (label_dim c) 0 then 0 else 1).

(** The number of layers the encoder section builds. *)
Definition encoder_layers (c : Config) : nat :=
  length (channel_mult c) * S (Z.to_nat (num_blocks c)).

(** [self.enc] as left by a constructor run. *)
Definition enc_table (s : ISt) : ModuleDict :=
  match attrs s !! "enc" with
  | Some (VModuleDict d) => d
  | _ => []
  end.

(** [self.out] as left by a constructor run. *)
Definition out_table (s : ISt) : ModuleDict :=
  match attrs s !! "out" with
  | Some (VModuleDict d) => d
  | _ => []
  end.

(** Stage [a] hands stage [b] as many channels as [b] was built to take. *)
Definition stage_feeds (a b : Layer) : bool :=
  match layer_out_channels a, layer_in_channels b with
  | Some o, Some i => Z.eqb o i
  | _, _ => false
  end.

(** Every stage feeds the next one. *)
Fixpoint composes (ls : list Layer) : bool :=
  match ls with
  | a :: ((b :: _) as tl) => stage_feeds a b && composes tl
  | _ => true
  end.

(** A downsampling block keeps the channel count. *)
Definition down_preserves (l : Layer) : bool :=
  match kind l with
  | UNetBlock i o true _ _ => Z.eqb i o
  | _ => true
  end.

(** The common shape of the three keys: the resolution twice, around an
    "x", then a suffix that names the role. *)
Definition stage_key (res : Z) (suffix : string) : string :=
  pretty res +:+ "x" +:+ pretty res +:+ suffix.

(** The resolution of each level, [img_resolution >> level]. *)
Definition level_resolutions (c : Config) : list Z :=
  map (fun lm => (img_resolution c ≫ Z.of_nat (fst lm))%Z) (enumerate (channel_mult c)).

(** Whether a character occurs in a string. *)
Fixpoint occurs (a : ascii) (s : string) : bool :=
  match s with
  | EmptyString => false
  | String b s' => Ascii.eqb a b || occurs a s'
  end.

(** A stage as the encoder builds it: a convolution, a block, or a
    downsampling block with equal channel counts on both sides. *)
Definition encoder_stage (l : Layer) : bool :=
  match kind l with
  | Conv2d _ _ _ _ => true
  | UNetBlock i o down _ _ => if down then Z.eqb i o else true
  | _ => false
  end.

(** The table obtained by assigning the entries of [l] in order. *)
Definition md_of_list (l d : ModuleDict) : ModuleDict :=
  fold_left (fun d kv => md_set (fst kv) (snd kv) d) l d.

(** Constructor state with the encoder locals folded in. *)
Definition conc (m : Obj) (st : EncSt) : ISt :=
  {| attrs := <["enc" := VModuleDict (e_tbl st)]> m; nbuilt := e_n st |}.

(** The attributes the mapping section assigns, starting with [n] layers
    built. *)
Definition mapping_attrs (c : Config) (n : nat) (m : Obj) : Obj :=
  let emb_channels := (model_channels c * channel_mult_emb c)%Z in
  let n1 := if Z.eqb (augment_dim c) 0 then S n else S (S n) in
  <["map_label" :=
      if Z.eqb (label_dim c) 0 then VNone
      else VLayer {| lid := S (S n1);
                     kind := Linear (label_dim c) emb_channels false (init_label (label_dim c)) |}]>
  (<["map_layer1" := VLayer {| lid := S n1; kind := Linear emb_channels emb_channels true init |}]>
  (<["map_layer0" := VLayer {| lid := n1; kind := Linear (model_channels c) emb_channels true init |}]>
  (<["map_augment" :=
      if Z.eqb (augment_dim c) 0 then VNone
      else VLayer {| lid := S n;
                     kind := Linear (augment_dim c) (model_channels c) false init_zero |}]>
  (<["map_noise" := VLayer {| lid := n; kind := PositionalEmbedding (model_channels c) |}]> m)))).

(** The attributes in place when the mapping section starts. *)
Definition base_attrs (c : Config) (cls : Obj) : Obj :=
  <["pool" := VStr (pool c)]>
  (<["label_dropout" := VFloat (label_dropout c)]>
  (<["meta" := VMeta MetaData_default]>
  (<["training" := VBool true]> cls))).

(** The encoder locals when the loop is left. *)
Definition enc_final (c : Config) : EncSt :=
  loop_enc md_set c {| e_tbl := []; e_cout := in_channels c; e_n := mapping_layers c |}.

(** The stages in the order they are built. *)
Definition enc_built (c : Config) : EncSt :=
  loop_enc md_snoc c {| e_tbl := []; e_cout := in_channels c; e_n := mapping_layers c |}.

(** The constructor state when the pooling section starts. *)
Definition at_pooling (c : Config) (cls : Obj) : ISt :=
  conc (mapping_attrs c 0 (base_attrs c cls)) (enc_final c).

(** The constructor state after line 204, when [_feature_size] resolves to
    [fs] and the layer builds: [linear_in] is stored. *)
Definition at_linear_in (c : Config) (cls : Obj) (fs : Z) : ISt :=
  {| attrs :=
       <["out" := VModuleDict
                    [("linear_in",
                      {| lid := nbuilt (at_pooling c cls);
                         kind := Linear fs 2048 true init_default |})]]>
         (attrs (at_pooling c cls));
     nbuilt := S (nbuilt (at_pooling c cls)) |}.

(** The bookkeeping of [cout]: the stages compose, and the last one puts
    out [cout] channels. *)
Definition chained (st : EncSt) : Prop :=
  composes (md_values (e_tbl st)) = true
  /\ forall a, last (md_values (e_tbl st)) = Some a -> layer_out_channels a = Some (e_cout st).

(** ** The layers a construction asks for *)

(** The constructor calls of the mapping section (lines 145-173), in
    order. *)
Definition mapping_kinds (c : Config) : list LayerKind :=
  let emb_channels := (model_channels c * channel_mult_emb c)%Z in
  [PositionalEmbedding (model_channels c)]
  ++ (if Z.eqb (augment_dim c) 0 then []
      else [Linear (augment_dim c) (model_channels c) false init_zero])
  ++ [Linear (model_channels c) emb_channels true init;
      Linear emb_channels emb_channels true init]
  ++ (if Z.eqb (label_dim c) 0 then []
      else [Linear (label_dim c) emb_channels false (init_label (label_dim c))]).

Definition stage_kinds (t : ModuleDict) : list LayerKind :=
  map (fun e => kind (snd e)) t.

(** The constructor calls of the encoder section (lines 175-198), in
    order. *)
Definition encoder_kinds (c : Config) : list LayerKind :=
  stage_kinds (e_tbl (enc_built c)).

(** All constructor calls made before the pooling section, in order. *)
Definition constructor_kinds (c : Config) : list LayerKind :=
  mapping_kinds c ++ encoder_kinds c.

(** The library accepts the call. *)
Definition builds `{LL : LayerLibrary} (k : LayerKind) : Prop :=
  layer_raises k = None.

Definition mapping_builds `{LL : LayerLibrary} (c : Config) : Prop :=
  Forall builds (mapping_kinds c).

Definition encoder_builds `{LL : LayerLibrary} (c : Config) : Prop :=
  Forall builds (encoder_kinds c).

(** Every layer of the mapping and encoder sections builds. *)
Definition layers_build `{LL : LayerLibrary} (c : Config) : Prop :=
  mapping_builds c /\ encoder_builds c.

Definition all_build `{LL : LayerLibrary} (ks : list LayerKind) : bool :=
  forallb (fun k => match layer_raises k with None => true | Some _ => false end) ks.

(** The first call of a sequence that the library turns down: how many
    calls precede it, and what it raises. *)
Fixpoint first_error `{LL : LayerLibrary} (ks : list LayerKind) : option (nat * exn) :=
  match ks with
  | [] => None
  | k :: ks' =>
      match layer_raises k with
      | Some e => Some (0, e)
      | None =>
          match first_error ks' with
          | Some (i, e) => Some (S i, e)
          | None => None
          end
      end
  end.

(** What a run that asks for the layers [ks], starting with [n0] layers
    built, comes to: [ok] when they all build, and otherwise the error of
    the first that does not, with the layers before it built. *)
Definition outcome `{LL : LayerLibrary} {A} (n0 : nat) (ks : list LayerKind)
    (ok r : ISt * result A) : Prop :=
  match first_error ks with
  | None => r = ok
  | Some (i, e) => exists s', r = (s', Raise e) /\ nbuilt s' = n0 + i
  end.

(** The encoder locals with the table emptied, and with entries put in
    front of the table. *)
Definition clear (st : EncSt) : EncSt :=
  {| e_tbl := []; e_cout := e_cout st; e_n := e_n st |}.

Definition prepend (t : ModuleDict) (st : EncSt) : EncSt :=
  {| e_tbl := t ++ e_tbl st; e_cout := e_cout st; e_n := e_n st |}.

Definition same_locals (st1 st2 : EncSt) : Prop :=
  e_cout st1 = e_cout st2 /\ e_n st1 = e_n st2.

(** A loop body that only appends to the table. *)
Definition appends {B} (g : EncSt -> B -> EncSt) : Prop :=
  forall st b, g st b = prepend (e_tbl st) (g (clear st) b).

(** A loop body that appends one entry per layer it builds. *)
Definition counts {B} (g : EncSt -> B -> EncSt) : Prop :=
  forall st b, e_n (g (clear st) b) = e_n st + length (e_tbl (g (clear st) b)).

(** ** What a statement does to one attribute *)

(** Attribute [a] is absent or holds a value that satisfies [Q]. *)
Definition attr_sat (a : string) (Q : Value -> Prop) (o : Obj) : Prop :=
  match o !! a with
  | Some v => Q v
  | None => True
  end.

(** A property of the attributes that only what attribute [a] holds can
    change. *)
Definition frame_for (a : string) (P : Obj -> Prop) : Prop :=
  forall b v o, a <> b -> P o -> P (<[b := v]> o).

(** A statement that keeps a property of the attributes, whether it
    returns or raises. *)
Definition keeps {A} (P : Obj -> Prop) (m : Init A) : Prop :=
  forall s, P (attrs s) -> P (attrs (fst (m s))).


(** ** Assumptions on the framework *)

(** A computation whose result does not depend on the random generator. *)
Definition rng_free `{FW : Framework} {A} (m : SE Rng A) : Prop :=
  forall g g', snd (m g) = snd (m g').

(** Evaluation mode: the sub-blocks do not draw from the generator, and the
    functional dropout called with [training=False] does not either. *)
Class EvalMode (FW : Framework) : Prop := {
  block_eval : forall l x emb, rng_free (call_block l x emb);
  dropout_eval : forall x p, rng_free (F_dropout x p (VBool false))
}.

(** [torch.rand] draws one number per requested entry, uniformly from the
    interval [0, 1). *)
Class UniformRand (FW : Framework) : Prop := {
  rand_length : forall n g, length (snd (torch_rand n g)) = n;
  rand_range : forall n g u, In u (snd (torch_rand n g)) -> (0 <= u)%Q /\ (u < 1)%Q
}.

(** The arithmetic behind "the contribution is zero": a tensor scaled by an
    all-false mask is zero, a linear layer without bias maps zero to zero,
    and adding zero changes nothing. *)
Class ZeroAlgebra (FW : Framework) : Type := {
  is_zero : Tensor -> Prop;
  mul_zero_mask : forall t n z, tensor_mul_mask t (repeat false n) = Ok z -> is_zero z;
  linear_zero : forall l i o ini z r,
    kind l = Linear i o false ini -> is_zero z -> call_layer l (Some z) = Ok r -> is_zero r;
  add_zero : forall e z r, is_zero z -> tensor_add e z = Ok r -> r = e
}.

(** The label projection a construction with [label_dim <> 0] assigns. *)
Definition map_label_layer (c : Config) : Layer :=
  {| lid := if Z.eqb (augment_dim c) 0 then 3 else 4;
     kind := Linear (label_dim c) (model_channels c * channel_mult_emb c) false
               (init_label (label_dim c)) |}.


(** ** A small executable framework

    Integer tensors of shape (batch, features), enough to run the forward
    pass on concrete inputs: every layer sums its input features, adds a
    bias derived from the layer's position and broadcasts the result to its
    output width; the generator is a counter whose draws cycle through
    0, 1/4, 1/2, 3/4. *)
Module IntKernels.

Definition tensor : Type := list (list Z).

Definition sumZ (r : list Z) : Z := fold_right Z.add 0%Z r.
Definition fill (n v : Z) : list Z := repeat v (Z.to_nat n).
Definition has_width (i : Z) (t : tensor) : bool :=
  forallb (fun r => Nat.eqb (length r) (Z.to_nat i)) t.

Definition affine (i o b : Z) (t : tensor) : result tensor :=
  if has_width i t then Ok (map (fun r => fill o (sumZ r + b)) t)
  else Raise (FrameworkError "shape mismatch").

Definition call_layer (l : Layer) (arg : option tensor) : result tensor :=
  match arg with
  | None => Raise (AttributeError "dtype")
  | Some t =>
      match kind l with
      | PositionalEmbedding n => Ok (map (fun r => fill n (sumZ r)) t)
      | Linear i o bias _ => affine i o (if bias then Z.of_nat (lid l) else 0) t
      | Conv2d i o _ _ => affine i o (Z.of_nat (lid l)) t
      | UNetBlock _ _ _ _ _ => Raise (TypeError "forward() missing 1 required positional argument: 'emb'")
      | GroupNorm _ => Ok t
      end
  end.

Definition call_block (l : Layer) (x emb : tensor) : SE nat tensor :=
  match kind l with
  | UNetBlock i o _ _ _ =>
      if Nat.eqb (length x) (length emb) then
        lift (affine i o (sumZ (map sumZ emb)) x)
      else raise (FrameworkError "shape mismatch")
  | _ => raise (TypeError "forward() takes 2 positional arguments but 3 were given")
  end.

Definition silu (t : tensor) : tensor := map (map (Z.max 0)) t.

Fixpoint add_row (a b : list Z) : option (list Z) :=
  match a, b with
  | [], [] => Some []
  | x :: a', y :: b' =>
      match add_row a' b' with
      | Some r => Some ((x + y)%Z :: r)
      | None => None
      end
  | _, _ => None
  end.

Fixpoint add_rows (a b : tensor) : option tensor :=
  match a, b with
  | [], [] => Some []
  | x :: a', y :: b' =>
      match add_row x y, add_rows a' b' with
      | Some r, Some t => Some (r :: t)
      | _, _ => None
      end
  | _, _ => None
  end.

Definition tensor_add (a b : tensor) : result tensor :=
  match add_rows a b with
  | Some t => Ok t
  | None => Raise (FrameworkError "shape mismatch")
  end.

Fixpoint mask_rows (t : tensor) (mask : list bool) : option tensor :=
  match t, mask with
  | [], [] => Some []
  | r :: t', b :: mask' =>
      match mask_rows t' mask' with
      | Some t'' => Some ((if b then r else map (fun _ => 0%Z) r) :: t'')
      | None => None
      end
  | _, _ => None
  end.

Definition tensor_mul_mask (t : tensor) (mask : list bool) : result tensor :=
  match mask_rows t mask with
  | Some t' => Ok t'
  | None => Raise (FrameworkError "shape mismatch")
  end.

Definition torch_rand (n : nat) (g : nat) : nat * list Q :=
  (g + n, map (fun i => Z.of_nat ((g + i) mod 4) # 4) (seq 0 n)).

Definition F_dropout (x : tensor) (p training : Value) : SE nat tensor :=
  if truthy training then
    fun g => (S g, Ok (if Nat.even g then x else map (map (fun _ => 0%Z)) x))
  else ret x.

Definition is_zero (t : tensor) : Prop := Forall (Forall (fun v => v = 0%Z)) t.

#[global] Instance framework : Framework :=
  Build_Framework tensor nat (@length (list Z)) torch_rand call_layer call_block
    silu tensor_add tensor_mul_mask F_dropout.

(** A small configuration: two levels, one block per level. *)
Definition small_config (label_dim augment_dim : Z) (label_dropout : Q) : Config := {|
  img_resolution := 4;
  in_channels := 2;
  out_channels := 2;
  label_dim := label_dim;
  augment_dim := augment_dim;
  model_channels := 2;
  channel_mult := [1; 2]%Z;
  channel_mult_emb := 2;
  num_blocks := 1;
  attn_resolutions := [];
  dropout := 0.10%Q;
  label_dropout := label_dropout;
  pool := "spatial"
|}.

(** The same with no labels and another pooling mode. *)
Definition small_config_pool (pool : string) : Config := {|
  img_resolution := 4;
  in_channels := 2;
  out_channels := 2;
  label_dim := 0;
  augment_dim := 0;
  model_channels := 2;
  channel_mult := [1; 2]%Z;
  channel_mult_emb := 2;
  num_blocks := 1;
  attn_resolutions := [];
  dropout := 0.10%Q;
  label_dropout := 0%Q;
  pool := pool
|}.

(** The object the constructor leaves behind for [c], completed by hand
    with the two things the forward pass needs and the constructor does not
    provide: the [dropout] attribute and a pooling head of three modules. *)
Definition completed (c : Config) (training : bool) : Obj :=
  let s := fst (GuidanceNet (LL := strict_sizes) c) in
  let n := nbuilt s in
  let width := (model_channels c * default 1%Z (last (channel_mult c)))%Z in
  <["training" := VBool training]>
    (<["dropout" := VFloat (dropout c)]>
       (<["out" := VModuleDict
                     [("linear_in", {| lid := n; kind := Linear width 8 true init_default |});
                      ("group_norm", {| lid := S n; kind := GroupNorm 8 |});
                      ("linear_out", {| lid := S (S n); kind := Linear 8 (out_channels c) true init_default |})]]>
          (attrs s))).

(** A batch of two one-pixel images with two channels, two noise levels,
    two one-hot labels over three classes, and an embedding of width 4. *)
Definition images : tensor := [[1; 2]; [3; 4]]%Z.
Definition noise : tensor := [[5]; [6]]%Z.
Definition labels_a : tensor := [[1; 0; 0]; [0; 1; 0]]%Z.
Definition labels_b : tensor := [[0; 0; 1]; [1; 0; 0]]%Z.
Definition augment_a : tensor := [[1; 1]; [2; 2]]%Z.
Definition embedding : tensor := [[1; 1; 1; 1]; [2; 2; 2; 2]]%Z.

End IntKernels.


(** ** What a key says about its stage *)

(** An entry of the encoder table belongs to a level of the configuration:
    under the convolution key sits the level-0 convolution, under a
    downsampling key a downsampling block without attention, under a block
    key a block whose attention flag says whether the level's resolution is
    listed in [attn_resolutions]. *)
Definition entry_matches (c : Config) (e : string * Layer) : Prop :=
  exists level mult,
    (level, mult) ∈ enumerate (channel_mult c)
    /\ let res := (img_resolution c ≫ Z.of_nat level)%Z in
       (level = 0 /\ fst e = key_conv res
        /\ exists i, kind (snd e) = Conv2d i (model_channels c * mult) 3 init)
       \/ (level <> 0 /\ fst e = key_down res
           /\ exists ch, kind (snd e) = UNetBlock ch ch true false (block_kwargs c))
       \/ (exists idx i, idx < Z.to_nat (num_blocks c)
             /\ fst e = key_block res idx
             /\ kind (snd e)
                = UNetBlock i (model_channels c * mult) false
                    (Z_in res (attn_resolutions c)) (block_kwargs c)).

(** A value that is a module dictionary whose entries all match. *)
Definition enc_entries_match (c : Config) (v : Value) : Prop :=
  exists d, v = VModuleDict d /\ Forall (entry_matches c) d.

(** The encoder locals when the table holds as many entries as layers were
    built since the loop started with [n0] layers. *)
Definition table_counts (n0 : nat) (st : EncSt) : Prop :=
  length (e_tbl st) + n0 = e_n st.

Definition table_bounded (n0 : nat) (st : EncSt) : Prop :=
  length (e_tbl st) + n0 <= e_n st.

(** The constructor arguments of the layer held by a value, if it holds
    one. *)
Definition value_kind (v : Value) : option LayerKind :=
  match v with
  | VLayer l => Some (kind l)
  | _ => None
  end.

(** A computation that leaves the random generator as it found it. *)
Definition rng_kept `{FW : Framework} {A} (m : SE Rng A) : Prop :=
  forall g, fst (m g) = g.

(** A configuration without levels: the encoder loop does not run. *)
Definition no_level_config : Config := {|
  img_resolution := 16;
  in_channels := 2;
  out_channels := 2;
  label_dim := 0;
  augment_dim := 0;
  model_channels := 192;
  channel_mult := [];
  channel_mult_emb := 4;
  num_blocks := 3;
  attn_resolutions := [32; 16; 8]%Z;
  dropout := 0.10%Q;
  label_dropout := 0%Q;
  pool := "spatial"
|}.

(** A configuration whose second level asks for blocks with 0 output
    channels, with an unsupported pooling mode. *)
Definition zero_mult_config : Config := {|
  img_resolution := 4;
  in_channels := 2;
  out_channels := 2;
  label_dim := 0;
  augment_dim := 0;
  model_channels := 2;
  channel_mult := [1; 0]%Z;
  channel_mult_emb := 2;
  num_blocks := 1;
  attn_resolutions := [];
  dropout := 0.10%Q;
  label_dropout := 0%Q;
  pool := "max"
|}.

(** The attributes assigned before the pooling section, latest first. *)
Definition assigned_before_pooling : list string :=
  ["enc"; "map_label"; "map_layer1"; "map_layer0"; "map_augment"; "map_noise";
   "pool"; "label_dropout"; "meta"; "training"].

(** * Proofs *)

(** ** The monad *)

Lemma bind_ok {S A B} (m : SE S A) (k : A -> SE S B) s s' a :
  m s = (s', Ok a) -> bind m k s = k a s'.
Proof. intros E. unfold bind. rewrite E. reflexivity. Qed.

Lemma bind_raise {S A B} (m : SE S A) (k : A -> SE S B) s s' e :
  m s = (s', Raise e) -> bind m k s = (s', Raise e).
Proof. intros E. unfold bind. rewrite E. reflexivity. Qed.

(** ** Module dictionaries *)

Lemma head_map {A B} (f : A -> B) (l : list A) : head (map f l) = f <$> head l.
Proof. destruct l; reflexivity. Qed.

Lemma md_set_fresh k v d :
  k ∉ md_keys d -> md_set k v d = md_snoc k v d.
Proof.
  unfold md_snoc. induction d as [|[k' v'] d IH]; simpl; intros Hk; [reflexivity|].
  apply not_elem_of_cons in Hk as [Hne Hk].
  destruct (String.eqb_spec k k') as [->|_]; [contradiction|].
  rewrite IH by assumption. reflexivity.
Qed.

Lemma md_of_list_snoc l k v :
  md_of_list (md_snoc k v l) [] = md_set k v (md_of_list l []).
Proof. unfold md_of_list, md_snoc. rewrite fold_left_app. reflexivity. Qed.

Lemma md_of_list_NoDup l d :
  NoDup (md_keys d ++ md_keys l) -> md_of_list l d = d ++ l.
Proof.
  revert d. induction l as [|[k v] l IH]; intros d Hnd; simpl.
  - rewrite app_nil_r. reflexivity.
  - unfold md_of_list in *. simpl.
    rewrite md_set_fresh.
    + unfold md_snoc. rewrite IH.
      * rewrite <- app_assoc. reflexivity.
      * unfold md_keys in *. rewrite map_app. simpl. rewrite <- app_assoc. exact Hnd.
    + simpl in Hnd. apply NoDup_app in Hnd as (_ & Hd & _).
      intros Hin. apply (Hd k Hin). left.
Qed.

Lemma md_values_set_Forall (P : Layer -> Prop) k v d :
  P v -> Forall P (md_values d) -> Forall P (md_values (md_set k v d)).
Proof.
  intros Hv. induction d as [|[k' v'] d IH]; simpl; intros Hd.
  - constructor; [assumption|constructor].
  - inversion Hd; subst. destruct (String.eqb k k'); simpl; constructor; auto.
Qed.

Lemma md_values_snoc_Forall (P : Layer -> Prop) k v d :
  P v -> Forall P (md_values d) -> Forall P (md_values (md_snoc k v d)).
Proof.
  intros Hv Hd. unfold md_snoc, md_values. rewrite map_app.
  apply Forall_app. split; [exact Hd|]. constructor; [exact Hv|constructor].
Qed.

Lemma md_set_length_le k v d : length (md_set k v d) <= S (length d).
Proof.
  induction d as [|[k' v'] d IH]; simpl; [lia|].
  destruct (String.eqb k k'); simpl; lia.
Qed.

Lemma md_set_Forall (P : string * Layer -> Prop) k v d :
  P (k, v) -> Forall P d -> Forall P (md_set k v d).
Proof.
  intros Hv. induction d as [|[k' v'] d IH]; simpl; intros Hd.
  - constructor; [assumption|constructor].
  - inversion Hd; subst. destruct (String.eqb k k'); constructor; auto.
Qed.

(** ** The encoder loop *)

Section LoopFacts.
Variable c : Config.

(** An invariant of both loop bodies is an invariant of the loop. *)
Lemma loop_levels_inv ins (I : EncSt -> Prop) :
  (forall st lm, I st -> I (loop_head ins c st lm)) ->
  (forall st res mult idx, I st -> I (loop_block ins c res mult st idx)) ->
  forall lms st, I st -> I (fold_left (loop_level ins c) lms st).
Proof.
  intros Hhead Hblock lms.
  induction lms as [|lm lms IH]; intros st Hst; simpl; [exact Hst|].
  apply IH. unfold loop_level.
  generalize (range (num_blocks c)).
  generalize (Hhead st lm Hst). generalize (loop_head ins c st lm).
  intros st' Hst' idxs. revert st' Hst'.
  induction idxs as [|idx idxs IHi]; intros st' Hst'; simpl; [exact Hst'|].
  apply IHi, Hblock, Hst'.
Qed.

(** The same for a relation between a run with [md_set] and one with
    [md_snoc]. *)
Lemma loop_levels_rel (R : EncSt -> EncSt -> Prop) :
  (forall s1 s2 lm, R s1 s2 -> R (loop_head md_set c s1 lm) (loop_head md_snoc c s2 lm)) ->
  (forall s1 s2 res mult idx, R s1 s2 ->
     R (loop_block md_set c res mult s1 idx) (loop_block md_snoc c res mult s2 idx)) ->
  forall lms s1 s2, R s1 s2 ->
    R (fold_left (loop_level md_set c) lms s1) (fold_left (loop_level md_snoc c) lms s2).
Proof.
  intros Hhead Hblock lms.
  induction lms as [|lm lms IH]; intros s1 s2 HR; simpl; [exact HR|].
  apply IH. unfold loop_level.
  generalize (range (num_blocks c)).
  generalize (Hhead s1 s2 lm HR).
  generalize (loop_head md_set c s1 lm) (loop_head md_snoc c s2 lm).
  intros t1 t2 HR' idxs. revert t1 t2 HR'.
  induction idxs as [|idx idxs IHi]; intros t1 t2 HR'; simpl; [exact HR'|].
  apply IHi, Hblock, HR'.
Qed.

(** The table of [self.enc] is what assigning the built stages in order
    gives; the channel count and the layer count do not depend on the
    table. *)
Lemma loop_enc_md_of_list st :
  let s1 := loop_enc md_set c st in
  let s2 := loop_enc md_snoc c {| e_tbl := []; e_cout := e_cout st; e_n := e_n st |} in
  e_tbl st = [] ->
  e_cout s1 = e_cout s2 /\ e_n s1 = e_n s2 /\ e_tbl s1 = md_of_list (e_tbl s2) [].
Proof.
  intros s1 s2 Hnil. subst s1 s2. unfold loop_enc.
  apply (loop_levels_rel (fun s1 s2 =>
           e_cout s1 = e_cout s2 /\ e_n s1 = e_n s2 /\ e_tbl s1 = md_of_list (e_tbl s2) [])).
  - intros s1 s2 lm (Hc & Hn & Ht). unfold loop_head.
    destruct (Nat.eqb (fst lm) 0); simpl;
      rewrite md_of_list_snoc, Hc, Hn, Ht; auto.
  - intros s1 s2 res mult idx (Hc & Hn & Ht). unfold loop_block. simpl.
    rewrite md_of_list_snoc, Hc, Hn, Ht. auto.
  - simpl. rewrite Hnil. auto.
Qed.

(** Every stage is built by one of the three constructor calls of the
    loop. *)
Lemma loop_enc_stages ins st :
  (forall k v d, encoder_stage v = true ->
     Forall (fun l => encoder_stage l = true) (md_values d) ->
     Forall (fun l => encoder_stage l = true) (md_values (ins k v d))) ->
  Forall (fun l => encoder_stage l = true) (md_values (e_tbl st)) ->
  Forall (fun l => encoder_stage l = true) (md_values (e_tbl (loop_enc ins c st))).
Proof.
  intros Hins. unfold loop_enc.
  apply (loop_levels_inv ins
           (fun st => Forall (fun l => encoder_stage l = true) (md_values (e_tbl st)))).
  - intros s lm Hs. unfold loop_head.
    destruct (Nat.eqb (fst lm) 0); simpl; apply Hins; auto.
    unfold encoder_stage. simpl. apply Z.eqb_refl.
  - intros s res mult idx Hs. unfold loop_block. simpl. apply Hins; auto.
Qed.

Lemma loop_blocks_count ins res mult idxs st :
  e_n (fold_left (loop_block ins c res mult) idxs st) = e_n st + length idxs.
Proof.
  revert st. induction idxs as [|idx idxs IH]; intros st; simpl; [lia|].
  rewrite IH. simpl. lia.
Qed.

(** One layer per level for the convolution or the downsampling block,
    and [num_blocks] blocks. *)
Lemma loop_enc_count ins st :
  e_n (loop_enc ins c st) = e_n st + encoder_layers c.
Proof.
  unfold loop_enc, encoder_layers.
  replace (length (channel_mult c)) with (length (enumerate (channel_mult c))).
  2:{ unfold enumerate. rewrite length_combine, length_seq. lia. }
  generalize (enumerate (channel_mult c)). intros lms. revert st.
  induction lms as [|lm lms IH]; intros st; simpl; [lia|].
  rewrite IH. unfold loop_level. rewrite loop_blocks_count.
  unfold range. rewrite length_seq.
  unfold loop_head. destruct (Nat.eqb (fst lm) 0); simpl; lia.
Qed.

Lemma loop_blocks_keys res mult idxs st :
  md_keys (e_tbl (fold_left (loop_block md_snoc c res mult) idxs st))
  = md_keys (e_tbl st) ++ map (key_block res) idxs.
Proof.
  revert st. induction idxs as [|idx idxs IH]; intros st; simpl.
  - rewrite app_nil_r. reflexivity.
  - rewrite IH. simpl. unfold md_snoc, md_keys. rewrite map_app. simpl.
    rewrite <- app_assoc. reflexivity.
Qed.

(** The keys of the built stages are [stage_keys]. *)
Lemma loop_levels_keys lms st :
  md_keys (e_tbl (fold_left (loop_level md_snoc c) lms st))
  = md_keys (e_tbl st) ++ flat_map (level_keys c) lms.
Proof.
  revert st. induction lms as [|lm lms IH]; intros st; simpl.
  - rewrite app_nil_r. reflexivity.
  - rewrite IH. unfold loop_level. rewrite loop_blocks_keys.
    assert (md_keys (e_tbl (loop_head md_snoc c st lm))
            = md_keys (e_tbl st)
              ++ [if Nat.eqb (fst lm) 0
                  then key_conv (img_resolution c ≫ Z.of_nat (fst lm))
                  else key_down (img_resolution c ≫ Z.of_nat (fst lm))]) as ->.
    { unfold loop_head. destruct (Nat.eqb (fst lm) 0); simpl;
        unfold md_snoc, md_keys; rewrite map_app; reflexivity. }
    unfold level_keys. rewrite <- !app_assoc. reflexivity.
Qed.

Lemma composes_snoc ls x :
  composes (ls ++ [x])
  = composes ls && match last ls with Some a => stage_feeds a x | None => true end.
Proof.
  induction ls as [|a ls IH]; simpl; [reflexivity|].
  destruct ls as [|b ls]; simpl.
  - rewrite andb_true_r. reflexivity.
  - simpl in IH. rewrite IH. rewrite andb_assoc. reflexivity.
Qed.

Lemma chained_snoc st k v cout' :
  chained st ->
  layer_in_channels v = Some (e_cout st) ->
  layer_out_channels v = Some cout' ->
  chained {| e_tbl := md_snoc k v (e_tbl st); e_cout := cout'; e_n := S (e_n st) |}.
Proof.
  intros [Hc Hl] Hin Hout. unfold chained, md_snoc, md_values. simpl.
  rewrite map_app. simpl. split.
  - rewrite composes_snoc. fold (md_values (e_tbl st)). rewrite Hc. simpl.
    destruct (last (md_values (e_tbl st))) as [a|] eqn:E; [|reflexivity].
    unfold stage_feeds. rewrite (Hl a eq_refl), Hin. apply Z.eqb_refl.
  - intros a. rewrite last_snoc. intros [= <-]. exact Hout.
Qed.

Lemma loop_levels_chained lms st :
  chained st -> chained (fold_left (loop_level md_snoc c) lms st).
Proof.
  apply loop_levels_inv.
  - intros s lm Hs. unfold loop_head.
    destruct (Nat.eqb (fst lm) 0); apply chained_snoc; auto.
  - intros s res mult idx Hs. unfold loop_block. apply chained_snoc; auto.
Qed.

(** Once a first stage is in the sequence it stays the first. *)
Lemma loop_levels_head lms st k v :
  head (e_tbl st) = Some (k, v) ->
  head (e_tbl (fold_left (loop_level md_snoc c) lms st)) = Some (k, v).
Proof.
  apply (loop_levels_inv md_snoc (fun st => head (e_tbl st) = Some (k, v))).
  - intros s lm Hs. unfold loop_head.
    destruct (Nat.eqb (fst lm) 0); simpl; unfold md_snoc;
      destruct (e_tbl s); simpl in *; congruence.
  - intros s res mult idx Hs. unfold loop_block, md_snoc. simpl.
    destruct (e_tbl s); simpl in *; congruence.
Qed.

End LoopFacts.

Lemma loop_enc_table_counts c n0 :
  table_counts n0 (loop_enc md_snoc c {| e_tbl := []; e_cout := in_channels c; e_n := n0 |}).
Proof.
  unfold loop_enc. apply loop_levels_inv; [| |reflexivity].
  - intros st lm Hst. unfold table_counts, loop_head, md_snoc in *.
    destruct (Nat.eqb (fst lm) 0); simpl; rewrite length_app; simpl; lia.
  - intros st res mult idx Hst. unfold table_counts, loop_block, md_snoc in *.
    simpl. rewrite length_app. simpl. lia.
Qed.

(** ** Running the constructor *)

(** *** Loops that append *)

Lemma stage_kinds_app a b : stage_kinds (a ++ b) = stage_kinds a ++ stage_kinds b.
Proof. apply map_app. Qed.

Lemma fold_appends {B} (g : EncSt -> B -> EncSt) :
  appends g ->
  forall l st, fold_left g l st = prepend (e_tbl st) (fold_left g l (clear st)).
Proof.
  intros Hg l. induction l as [|b l IH]; intros st; cbn [fold_left].
  - unfold prepend, clear. cbn. rewrite app_nil_r. destruct st; reflexivity.
  - rewrite (Hg st b).
    rewrite (IH (prepend (e_tbl st) (g (clear st) b))), (IH (g (clear st) b)).
    unfold prepend, clear. cbn. rewrite app_assoc. reflexivity.
Qed.

Lemma loop_block_appends c res mult : appends (loop_block md_snoc c res mult).
Proof. intros st idx. reflexivity. Qed.

Lemma loop_head_appends c : appends (loop_head md_snoc c).
Proof. intros st lm. unfold loop_head. destruct (Nat.eqb (fst lm) 0); reflexivity. Qed.

Lemma loop_level_appends c : appends (loop_level md_snoc c).
Proof.
  intros st lm. unfold loop_level.
  rewrite (fold_appends _ (loop_block_appends c _ _) _ (loop_head md_snoc c st lm)).
  rewrite (fold_appends _ (loop_block_appends c _ _) _ (loop_head md_snoc c (clear st) lm)).
  rewrite (loop_head_appends c st lm).
  unfold prepend, clear. cbn. rewrite app_assoc. reflexivity.
Qed.

Section ConstructorRuns.
Context `{LL : LayerLibrary}.

Lemma all_build_Forall ks : all_build ks = true -> Forall builds ks.
Proof.
  induction ks as [|k ks IH]; cbn; intros H; constructor.
  - unfold builds. destruct (layer_raises k); [discriminate|reflexivity].
  - apply IH. destruct (layer_raises k); [discriminate|exact H].
Qed.

Lemma new_layer_run k s :
  builds k ->
  new_layer k s
  = ({| attrs := attrs s; nbuilt := S (nbuilt s) |}, Ok {| lid := nbuilt s; kind := k |}).
Proof. unfold builds, new_layer. intros ->. reflexivity. Qed.

Lemma setitem_enc_run m st k l :
  setitem "enc" k (VLayer l) (conc m st)
  = (conc m {| e_tbl := md_set k l (e_tbl st); e_cout := e_cout st; e_n := e_n st |}, Ok tt).
Proof.
  unfold setitem, bind, getattr, getattr_, conc, setattr. simpl.
  rewrite lookup_insert_eq. simpl. rewrite insert_insert_eq. reflexivity.
Qed.

(** Building a stage and storing it under its key. *)
Lemma stage_run {A} m st k key (a : A) :
  builds k ->
  (let* l := new_layer k in setitem "enc" key (VLayer l) ;;; ret a) (conc m st)
  = (conc m {| e_tbl := md_set key {| lid := e_n st; kind := k |} (e_tbl st);
               e_cout := e_cout st; e_n := S (e_n st) |}, Ok a).
Proof.
  intros Hb.
  erewrite bind_ok by (apply new_layer_run; exact Hb).
  change {| attrs := attrs (conc m st); nbuilt := S (nbuilt (conc m st)) |}
    with (conc m {| e_tbl := e_tbl st; e_cout := e_cout st; e_n := S (e_n st) |}).
  erewrite bind_ok by apply setitem_enc_run.
  reflexivity.
Qed.

Lemma enc_block_run c m res mult st idx :
  builds (UNetBlock (e_cout st) (model_channels c * mult) false
            (Z_in res (attn_resolutions c)) (block_kwargs c)) ->
  enc_block c res mult (e_cout st) idx (conc m st)
  = (conc m (loop_block md_set c res mult st idx),
     Ok (e_cout (loop_block md_set c res mult st idx))).
Proof. intros Hb. unfold enc_block. cbv zeta. rewrite (stage_run _ _ _ _ _ Hb). reflexivity. Qed.

(** A loop in the monad against the same loop on the explicit locals, as
    long as the layers the loop asks for build. *)
Lemma foldM_conc_builds {B} (f : Z -> B -> Init Z) (gset gsnoc : EncSt -> B -> EncSt) m :
  appends gsnoc ->
  (forall st1 st2 b, same_locals st1 st2 ->
     Forall builds (stage_kinds (e_tbl (gsnoc (clear st2) b))) ->
     f (e_cout st1) b (conc m st1) = (conc m (gset st1 b), Ok (e_cout (gset st1 b)))
     /\ same_locals (gset st1 b) (gsnoc (clear st2) b)) ->
  forall l st1 st2, same_locals st1 st2 ->
    Forall builds (stage_kinds (e_tbl (fold_left gsnoc l (clear st2)))) ->
    foldM f (e_cout st1) l (conc m st1)
    = (conc m (fold_left gset l st1), Ok (e_cout (fold_left gset l st1)))
    /\ same_locals (fold_left gset l st1) (fold_left gsnoc l (clear st2)).
Proof.
  intros Happ Hstep l. induction l as [|b l IH]; intros st1 st2 HR HF; cbn [fold_left foldM].
  - split; [reflexivity|exact HR].
  - cbn [fold_left] in HF. rewrite (fold_appends _ Happ) in HF.
    unfold prepend in HF. cbn [e_tbl] in HF.
    rewrite stage_kinds_app in HF. apply Forall_app in HF as [HF1 HF2].
    destruct (Hstep st1 st2 b HR HF1) as [Hrun HR'].
    erewrite bind_ok by exact Hrun.
    destruct (IH _ _ HR' HF2) as [Hrun' HR''].
    split; [exact Hrun'|].
    rewrite (fold_appends _ Happ). exact HR''.
Qed.

Lemma enc_block_step c m res mult st1 st2 idx :
  same_locals st1 st2 ->
  Forall builds (stage_kinds (e_tbl (loop_block md_snoc c res mult (clear st2) idx))) ->
  enc_block c res mult (e_cout st1) idx (conc m st1)
  = (conc m (loop_block md_set c res mult st1 idx),
     Ok (e_cout (loop_block md_set c res mult st1 idx)))
  /\ same_locals (loop_block md_set c res mult st1 idx)
       (loop_block md_snoc c res mult (clear st2) idx).
Proof.
  intros [Hc Hn] HF. cbn in HF. apply Forall_inv in HF. rewrite <- Hc in HF.
  split; [apply enc_block_run; exact HF|].
  split; cbn; congruence.
Qed.

Lemma enc_level_step c m st1 st2 lm :
  same_locals st1 st2 ->
  Forall builds (stage_kinds (e_tbl (loop_level md_snoc c (clear st2) lm))) ->
  enc_level c (e_cout st1) lm (conc m st1)
  = (conc m (loop_level md_set c st1 lm), Ok (e_cout (loop_level md_set c st1 lm)))
  /\ same_locals (loop_level md_set c st1 lm) (loop_level md_snoc c (clear st2) lm).
Proof.
  intros HR HF. unfold loop_level in HF |- *.
  rewrite (fold_appends _ (loop_block_appends c _ _)) in HF.
  unfold prepend in HF. cbn [e_tbl] in HF.
  rewrite stage_kinds_app in HF. apply Forall_app in HF as [Hhead Hblocks].
  assert ((if Nat.eqb (fst lm) 0 then
             let cin := e_cout st1 in
             let cout := (model_channels c * snd lm)%Z in
             let* l := new_layer (Conv2d cin cout 3 init) in
             setitem "enc" (key_conv (img_resolution c ≫ Z.of_nat (fst lm))) (VLayer l) ;;;
             ret cout
           else
             let* l := new_layer (UNetBlock (e_cout st1) (e_cout st1) true false (block_kwargs c)) in
             setitem "enc" (key_down (img_resolution c ≫ Z.of_nat (fst lm))) (VLayer l) ;;;
             ret (e_cout st1)) (conc m st1)
          = (conc m (loop_head md_set c st1 lm), Ok (e_cout (loop_head md_set c st1 lm)))
          /\ same_locals (loop_head md_set c st1 lm) (loop_head md_snoc c (clear st2) lm))
    as [Hrun HR'].
  { destruct HR as [Hc Hn]. unfold loop_head in *.
    destruct (Nat.eqb (fst lm) 0); cbn in Hhead; apply Forall_inv in Hhead;
      rewrite <- Hc in Hhead; cbv zeta; rewrite (stage_run _ _ _ _ _ Hhead);
      (split; [reflexivity|split; cbn; congruence]). }
  unfold enc_level. erewrite bind_ok by exact Hrun.
  destruct (foldM_conc_builds
              (enc_block c (img_resolution c ≫ Z.of_nat (fst lm)) (snd lm))
              (loop_block md_set c (img_resolution c ≫ Z.of_nat (fst lm)) (snd lm))
              (loop_block md_snoc c (img_resolution c ≫ Z.of_nat (fst lm)) (snd lm)) m
              (loop_block_appends c _ _)
              (fun t1 t2 idx Ht Hb => enc_block_step c m _ _ t1 t2 idx Ht Hb)
              (range (num_blocks c)) _ _ HR' Hblocks) as [Hfold HR''].
  split; [exact Hfold|].
  rewrite (fold_appends _ (loop_block_appends c _ _) _ (loop_head md_snoc c (clear st2) lm)).
  exact HR''.
Qed.

Lemma out_channels_list_ok ls :
  Forall (fun l => encoder_stage l = true) ls -> exists os, out_channels_list ls = Ok os.
Proof.
  induction 1 as [|l ls Hl _ [os IH]]; simpl; [eauto|].
  unfold encoder_stage, layer_out_channels in *.
  destruct (kind l); try discriminate; rewrite IH; eauto.
Qed.

Lemma init_encoder_run c m n :
  Forall builds
    (stage_kinds (e_tbl (loop_enc md_snoc c {| e_tbl := []; e_cout := in_channels c; e_n := n |}))) ->
  init_encoder c {| attrs := m; nbuilt := n |}
  = (conc m (loop_enc md_set c {| e_tbl := []; e_cout := in_channels c; e_n := n |}), Ok tt).
Proof.
  intros HF. unfold init_encoder.
  erewrite bind_ok by reflexivity.
  change {| attrs := <["enc":=VModuleDict []]> (attrs {| attrs := m; nbuilt := n |});
            nbuilt := nbuilt {| attrs := m; nbuilt := n |} |}
    with (conc m {| e_tbl := []; e_cout := in_channels c; e_n := n |}).
  set (st0 := {| e_tbl := []; e_cout := in_channels c; e_n := n |}) in *.
  change (in_channels c) with (e_cout st0).
  destruct (foldM_conc_builds (enc_level c) (loop_level md_set c) (loop_level md_snoc c) m
              (loop_level_appends c)
              (fun t1 t2 lm Ht Hb => enc_level_step c m t1 t2 lm Ht Hb)
              (enumerate (channel_mult c)) st0 st0 (conj eq_refl eq_refl) HF) as [Hrun _].
  erewrite bind_ok by exact Hrun.
  fold (loop_enc md_set c st0).
  destruct (out_channels_list_ok (md_values (e_tbl (loop_enc md_set c st0)))) as [os Hos].
  { apply loop_enc_stages; [apply md_values_set_Forall|constructor]. }
  unfold bind, getattr, getattr_, lift, conc, values_. simpl.
  rewrite lookup_insert_eq. simpl. rewrite Hos. reflexivity.
Qed.

Lemma init_mapping_run c m n :
  mapping_builds c ->
  init_mapping c {| attrs := m; nbuilt := n |}
  = ({| attrs := mapping_attrs c n m; nbuilt := n + mapping_layers c |}, Ok tt).
Proof.
  unfold mapping_builds, mapping_kinds, builds. intros H.
  unfold init_mapping, mapping_attrs, mapping_layers, bind, new_layer, setattr, ret.
  destruct (Z.eqb (augment_dim c) 0), (Z.eqb (label_dim c) 0); cbn in H |- *;
    repeat (apply Forall_cons in H as [? H]);
    repeat (match goal with E : layer_raises _ = None |- _ => rewrite E; clear E end; cbn);
    repeat f_equal; lia.
Qed.

(** Everything before the pooling section runs to completion when the
    layers build. *)
Lemma init_prefix_run c cls :
  layers_build c ->
  __init__ c {| attrs := cls; nbuilt := 0 |} = init_pooling c (at_pooling c cls).
Proof.
  intros [Hmap Henc]. unfold __init__, Module_init.
  do 3 (erewrite bind_ok by reflexivity). cbn [attrs nbuilt].
  erewrite bind_ok by (apply init_mapping_run; exact Hmap).
  erewrite bind_ok by (apply init_encoder_run; exact Henc).
  reflexivity.
Qed.

End ConstructorRuns.

(** Closes [a ∉ [n1; ...; nk]] for string literals. *)
Ltac not_among :=
  repeat (apply not_elem_of_cons; split; [discriminate|]); apply not_elem_of_nil.

(** The pooling section leaves alone every attribute but [out]. *)
Lemma at_pooling_lookup c cls a :
  a ∉ ["enc"; "map_label"; "map_layer1"; "map_layer0"; "map_augment"; "map_noise";
       "pool"; "label_dropout"; "meta"; "training"] ->
  attrs (at_pooling c cls) !! a = cls !! a.
Proof.
  intros Ha. unfold at_pooling, conc, mapping_attrs, base_attrs. cbn [attrs].
  repeat (apply not_elem_of_cons in Ha as [? Ha]).
  repeat (rewrite lookup_insert_ne by congruence).
  reflexivity.
Qed.

Lemma at_pooling_enc c cls :
  attrs (at_pooling c cls) !! "enc" = Some (VModuleDict (e_tbl (enc_final c))).
Proof. unfold at_pooling, conc. cbn [attrs]. apply lookup_insert_eq. Qed.

Lemma at_pooling_nbuilt c cls :
  nbuilt (at_pooling c cls) = mapping_layers c + encoder_layers c.
Proof.
  unfold at_pooling, conc, enc_final. cbn [nbuilt]. rewrite loop_enc_count. reflexivity.
Qed.

Section ConstructorOutcome.
Context `{LL : LayerLibrary}.

(** The outcome of a construction whose layers build, when [_feature_size]
    does not resolve before [__init__] runs. *)
Lemma construct_run cls c :
  layers_build c ->
  cls !! "_feature_size" = None ->
  construct cls c
  = if String.eqb (pool c) "spatial" then
      ({| attrs := <["out" := VModuleDict []]> (attrs (at_pooling c cls));
          nbuilt := nbuilt (at_pooling c cls) |},
       Raise (AttributeError "_feature_size"))
    else
      (at_pooling c cls,
       Raise (NotImplementedError ("Unexpected " +:+ pool c +:+ " pooling"))).
Proof.
  intros Hb Hfs. unfold construct. rewrite (init_prefix_run _ _ Hb). unfold init_pooling.
  destruct (String.eqb (pool c) "spatial"); [|reflexivity].
  erewrite bind_ok by reflexivity.
  erewrite bind_raise; [reflexivity|].
  erewrite bind_raise; [reflexivity|].
  unfold getattr, getattr_, setattr. cbn [attrs].
  rewrite lookup_insert_ne by discriminate.
  rewrite at_pooling_lookup, Hfs; [reflexivity|not_among].
Qed.

Lemma GuidanceNet_run c :
  layers_build c ->
  GuidanceNet c
  = if String.eqb (pool c) "spatial" then
      ({| attrs := <["out" := VModuleDict []]> (attrs (at_pooling c ∅));
          nbuilt := nbuilt (at_pooling c ∅) |},
       Raise (AttributeError "_feature_size"))
    else
      (at_pooling c ∅,
       Raise (NotImplementedError ("Unexpected " +:+ pool c +:+ " pooling"))).
Proof. intros Hb. apply construct_run; [exact Hb|apply lookup_empty]. Qed.

(** The table in [self.enc] after a construction whose layers build. *)
Lemma GuidanceNet_enc_table c :
  layers_build c -> enc_table (fst (GuidanceNet c)) = e_tbl (enc_final c).
Proof.
  intros Hb. rewrite (GuidanceNet_run _ Hb). unfold enc_table.
  destruct (String.eqb (pool c) "spatial"); cbn [fst attrs].
  - rewrite lookup_insert_ne by discriminate. rewrite at_pooling_enc. reflexivity.
  - rewrite at_pooling_enc. reflexivity.
Qed.

Lemma GuidanceNet_nbuilt c :
  layers_build c -> nbuilt (fst (GuidanceNet c)) = mapping_layers c + encoder_layers c.
Proof.
  intros Hb. rewrite (GuidanceNet_run _ Hb).
  destruct (String.eqb (pool c) "spatial"); cbn [fst nbuilt]; apply at_pooling_nbuilt.
Qed.

Lemma GuidanceNet_attrs_before_pooling c a :
  layers_build c ->
  a <> "out" ->
  attrs (fst (GuidanceNet c)) !! a = attrs (at_pooling c ∅) !! a.
Proof.
  intros Hb Ha. rewrite (GuidanceNet_run _ Hb).
  destruct (String.eqb (pool c) "spatial"); cbn [fst attrs]; [|reflexivity].
  apply lookup_insert_ne. congruence.
Qed.

(** *** What a statement leaves alone

    These hold of every run, also of one cut short by a layer that does
    not build. *)

Lemma frame_attr_sat a Q : frame_for a (attr_sat a Q).
Proof.
  intros b v o Hne H. unfold attr_sat. rewrite lookup_insert_ne by congruence. exact H.
Qed.

Lemma frame_lookup a (x : option Value) : frame_for a (fun o => o !! a = x).
Proof. intros b v o Hne H. rewrite lookup_insert_ne by congruence. exact H. Qed.

Lemma attr_sat_insert a (Q : Value -> Prop) v o : Q v -> attr_sat a Q (<[a := v]> o).
Proof. intros H. unfold attr_sat. rewrite lookup_insert_eq. exact H. Qed.

Lemma keeps_ret {A} P (a : A) : keeps P (ret a).
Proof. intros s H. exact H. Qed.

Lemma keeps_raise {A} P e : keeps P (@raise ISt A e).
Proof. intros s H. exact H. Qed.

Lemma keeps_lift {A} P (r : result A) : keeps P (lift r).
Proof. intros s H. exact H. Qed.

Lemma keeps_getattr P a : keeps P (getattr a).
Proof. intros s H. exact H. Qed.

Lemma keeps_new_layer P k : keeps P (new_layer k).
Proof. intros s H. unfold new_layer. destruct (layer_raises k); exact H. Qed.

Lemma keeps_bind {A B} P (m : Init A) (k : A -> Init B) :
  keeps P m -> (forall a, keeps P (k a)) -> keeps P (bind m k).
Proof.
  intros Hm Hk s Hs. unfold bind. specialize (Hm s Hs).
  destruct (m s) as [s' [a|e]]; cbn [fst] in Hm; [apply Hk, Hm|exact Hm].
Qed.

Lemma keeps_bind_ret {A B} P (a : A) (k : A -> Init B) :
  keeps P (k a) -> keeps P (bind (ret a) k).
Proof. intros Hk s Hs. apply Hk, Hs. Qed.

Lemma keeps_foldM {A B} P (f : A -> B -> Init A) l :
  (forall a b, b ∈ l -> keeps P (f a b)) -> forall a, keeps P (foldM f a l).
Proof.
  induction l as [|b l IH]; intros Hf a; cbn [foldM].
  - apply keeps_ret.
  - apply keeps_bind; [apply Hf; left|].
    intros a'. apply IH. intros a'' b' Hb'. apply Hf. right. exact Hb'.
Qed.

Lemma keeps_setattr P b v :
  (forall o, P o -> P (<[b := v]> o)) -> keeps P (setattr b v).
Proof. intros H s Hs. apply H, Hs. Qed.

Lemma keeps_setitem P b key v :
  (forall o tbl l, P o -> o !! b = Some (VModuleDict tbl) -> v = VLayer l ->
     P (<[b := VModuleDict (md_set key l tbl)]> o)) ->
  keeps P (setitem b key v).
Proof.
  intros H s Hs. unfold setitem, bind, getattr, getattr_.
  destruct (attrs s !! b) as [d|] eqn:E; [|exact Hs].
  destruct d; try exact Hs. destruct v; try exact Hs.
  apply (H _ _ _ Hs E eq_refl).
Qed.

Lemma keeps_setattr_frame a P b v : frame_for a P -> a <> b -> keeps P (setattr b v).
Proof. intros HP Hne. apply keeps_setattr. intros o. apply HP, Hne. Qed.

Lemma keeps_setitem_frame a P b key v : frame_for a P -> a <> b -> keeps P (setitem b key v).
Proof. intros HP Hne. apply keeps_setitem. intros o tbl l Ho _ _. apply HP; assumption. Qed.

(** Building a layer and going on with it. *)
Lemma keeps_new_layer_bind {B} P k (cont : Layer -> Init B) :
  (forall n, keeps P (cont {| lid := n; kind := k |})) -> keeps P (bind (new_layer k) cont).
Proof.
  intros H s Hs. unfold bind, new_layer.
  destruct (layer_raises k); [exact Hs|]. apply (H (nbuilt s)). exact Hs.
Qed.

Ltac keeps_step :=
  lazymatch goal with
  | |- keeps _ (bind (ret _) _) => apply keeps_bind_ret
  | |- keeps _ (bind _ _) => apply keeps_bind; [|intro; cbv beta]
  | |- keeps _ (ret _) => apply keeps_ret
  | |- keeps _ (raise _) => apply keeps_raise
  | |- keeps _ (lift _) => apply keeps_lift
  | |- keeps _ (getattr _) => apply keeps_getattr
  | |- keeps _ (new_layer _) => apply keeps_new_layer
  | |- keeps _ (foldM _ _ _) => apply keeps_foldM; intros
  | |- keeps _ (if ?b then _ else _) => destruct b
  end.

(** Closes the goals of a section that does not assign attribute [a]. *)
Ltac keeps_frame a :=
  repeat first
    [ keeps_step
    | apply (keeps_setattr_frame a); [assumption|congruence]
    | apply (keeps_setitem_frame a); [assumption|congruence] ].

Lemma keeps_Module_init a P meta :
  frame_for a P -> a <> "training" -> a <> "meta" -> keeps P (Module_init meta).
Proof. intros HP H1 H2. unfold Module_init. keeps_frame a. Qed.

Lemma keeps_init_mapping a P c :
  frame_for a P ->
  a ∉ ["map_noise"; "map_augment"; "map_layer0"; "map_layer1"; "map_label"] ->
  keeps P (init_mapping c).
Proof.
  intros HP Ha. repeat (apply not_elem_of_cons in Ha as [? Ha]).
  unfold init_mapping. cbv zeta. keeps_frame a.
Qed.

Lemma keeps_init_encoder a P c : frame_for a P -> a <> "enc" -> keeps P (init_encoder c).
Proof.
  intros HP Ha. unfold init_encoder. cbv zeta.
  apply keeps_bind; [keeps_frame a|intros _].
  apply keeps_bind; [|intros cout; keeps_frame a].
  apply keeps_foldM. intros cout lm _. unfold enc_level. cbv zeta.
  apply keeps_bind; [keeps_frame a|intros cout'].
  apply keeps_foldM. intros cout'' idx _. unfold enc_block. cbv zeta. keeps_frame a.
Qed.

Lemma keeps_init_pooling a P c : frame_for a P -> a <> "out" -> keeps P (init_pooling c).
Proof. intros HP Ha. unfold init_pooling. keeps_frame a. Qed.

(** The constructor keeps what its mapping and encoder sections keep, for
    an attribute that no other statement assigns. *)
Lemma keeps_init a P c :
  frame_for a P ->
  a ∉ ["training"; "meta"; "label_dropout"; "pool"; "out"] ->
  keeps P (init_mapping c) -> keeps P (init_encoder c) -> keeps P (__init__ c).
Proof.
  intros HP Ha Hmap Henc. repeat (apply not_elem_of_cons in Ha as [? Ha]).
  unfold __init__.
  apply keeps_bind; [apply (keeps_Module_init a); assumption|intros _].
  apply keeps_bind; [apply (keeps_setattr_frame a); [assumption|congruence]|intros _].
  apply keeps_bind; [apply (keeps_setattr_frame a); [assumption|congruence]|intros _].
  apply keeps_bind; [exact Hmap|intros _].
  apply keeps_bind; [exact Henc|intros _].
  apply (keeps_init_pooling a); [assumption|congruence].
Qed.

(** An attribute that the constructor never assigns does not resolve on
    the object it leaves, unless it resolved before. *)
Lemma construct_never_assigns cls c a :
  a ∉ "out" :: assigned_before_pooling ->
  attrs (fst (construct cls c)) !! a = cls !! a.
Proof.
  intros Ha. unfold assigned_before_pooling in Ha.
  repeat (apply not_elem_of_cons in Ha as [? Ha]).
  assert (keeps (fun o => o !! a = cls !! a) (__init__ c)) as Hk.
  { apply (keeps_init a); [apply frame_lookup| | |].
    - repeat (apply not_elem_of_cons; split; [congruence|]). apply not_elem_of_nil.
    - apply (keeps_init_mapping a); [apply frame_lookup|].
      repeat (apply not_elem_of_cons; split; [congruence|]). apply not_elem_of_nil.
    - apply (keeps_init_encoder a); [apply frame_lookup|congruence]. }
  apply (Hk {| attrs := cls; nbuilt := 0 |}). reflexivity.
Qed.

(** With [label_dim = 0] the only value [map_label] is ever given is
    [None]. *)
Lemma keeps_mapping_label c :
  label_dim c = 0%Z ->
  keeps (attr_sat "map_label" (fun v => v = VNone)) (init_mapping c).
Proof.
  intros Hd. pose proof (frame_attr_sat "map_label" (fun v => v = VNone)) as HP.
  unfold init_mapping. rewrite Hd. cbn [Z.eqb]. cbv zeta.
  repeat first
    [ keeps_step
    | apply (keeps_setattr_frame "map_label"); [assumption|discriminate] ].
  apply keeps_setattr. intros o _. apply attr_sat_insert. reflexivity.
Qed.

Lemma keeps_mapping_augment c :
  augment_dim c = 0%Z ->
  keeps (attr_sat "map_augment" (fun v => v = VNone)) (init_mapping c).
Proof.
  intros Hd. pose proof (frame_attr_sat "map_augment" (fun v => v = VNone)) as HP.
  unfold init_mapping. rewrite Hd. cbn [Z.eqb]. cbv zeta.
  repeat first
    [ keeps_step
    | apply (keeps_setattr_frame "map_augment"); [assumption|discriminate] ].
  apply keeps_setattr. intros o _. apply attr_sat_insert. reflexivity.
Qed.

Lemma GuidanceNet_map_label_None c :
  label_dim c = 0%Z ->
  attr_sat "map_label" (fun v => v = VNone) (attrs (fst (GuidanceNet c))).
Proof.
  intros Hd.
  assert (keeps (attr_sat "map_label" (fun v => v = VNone)) (__init__ c)) as Hk.
  { apply (keeps_init "map_label"); [apply frame_attr_sat|not_among| |].
    - apply keeps_mapping_label, Hd.
    - apply (keeps_init_encoder "map_label"); [apply frame_attr_sat|discriminate]. }
  apply (Hk {| attrs := ∅; nbuilt := 0 |}). unfold attr_sat. cbn [attrs].
  rewrite lookup_empty. exact I.
Qed.

Lemma GuidanceNet_map_augment_None c :
  augment_dim c = 0%Z ->
  attr_sat "map_augment" (fun v => v = VNone) (attrs (fst (GuidanceNet c))).
Proof.
  intros Hd.
  assert (keeps (attr_sat "map_augment" (fun v => v = VNone)) (__init__ c)) as Hk.
  { apply (keeps_init "map_augment"); [apply frame_attr_sat|not_among| |].
    - apply keeps_mapping_augment, Hd.
    - apply (keeps_init_encoder "map_augment"); [apply frame_attr_sat|discriminate]. }
  apply (Hk {| attrs := ∅; nbuilt := 0 |}). unfold attr_sat. cbn [attrs].
  rewrite lookup_empty. exact I.
Qed.

(** Every entry the encoder section stores matches its key. *)
Lemma keeps_stage_entry c k key {A} (a : A) :
  (forall n, entry_matches c (key, {| lid := n; kind := k |})) ->
  keeps (attr_sat "enc" (enc_entries_match c))
    (let* l := new_layer k in setitem "enc" key (VLayer l) ;;; ret a).
Proof.
  intros Hm. apply keeps_new_layer_bind. intros n.
  apply keeps_bind; [|intros _; apply keeps_ret].
  apply keeps_setitem. intros o tbl l Ho E [= <-].
  apply attr_sat_insert. unfold attr_sat in Ho. rewrite E in Ho.
  destruct Ho as (d & [= <-] & Hd).
  exists (md_set key {| lid := n; kind := k |} tbl). split; [reflexivity|].
  apply md_set_Forall; [apply Hm|exact Hd].
Qed.

Lemma keeps_encoder_entries c :
  keeps (attr_sat "enc" (enc_entries_match c)) (init_encoder c).
Proof.
  unfold init_encoder. cbv zeta.
  apply keeps_bind; [|intros _].
  { apply keeps_setattr. intros o _. apply attr_sat_insert.
    exists []. split; [reflexivity|constructor]. }
  apply keeps_bind; [|intros cout; repeat keeps_step].
  apply keeps_foldM. intros cout [level mult] Hin. unfold enc_level. cbn [fst snd]. cbv zeta.
  apply keeps_bind; [|intros cout'].
  - destruct (Nat.eqb_spec level 0) as [->|Hne]; apply keeps_stage_entry; intros n.
    + exists 0, mult. split; [exact Hin|]. left. repeat split. eexists. reflexivity.
    + exists level, mult. split; [exact Hin|]. right. left. repeat split; [exact Hne|].
      eexists. reflexivity.
  - apply keeps_foldM. intros cout'' idx Hidx. unfold enc_block. cbv zeta.
    apply keeps_stage_entry. intros n.
    exists level, mult. split; [exact Hin|]. right. right. exists idx. eexists.
    repeat split. unfold range in Hidx. apply list_elem_of_In, in_seq in Hidx. lia.
Qed.

Lemma GuidanceNet_enc_entries c :
  attr_sat "enc" (enc_entries_match c) (attrs (fst (GuidanceNet c))).
Proof.
  assert (keeps (attr_sat "enc" (enc_entries_match c)) (__init__ c)) as Hk.
  { apply (keeps_init "enc"); [apply frame_attr_sat|not_among| |].
    - apply (keeps_init_mapping "enc"); [apply frame_attr_sat|not_among].
    - apply keeps_encoder_entries. }
  apply (Hk {| attrs := ∅; nbuilt := 0 |}). unfold attr_sat. cbn [attrs].
  rewrite lookup_empty. exact I.
Qed.

(** *** The constructor does not return *)




(** *** What the mapping section leaves, whatever happens after it *)

Lemma GuidanceNet_mapping_attr c a :
  mapping_builds c ->
  a <> "enc" -> a <> "out" ->
  attrs (fst (GuidanceNet c)) !! a = mapping_attrs c 0 (base_attrs c ∅) !! a.
Proof.
  intros Hmap Henc Hout. unfold GuidanceNet, construct, __init__, Module_init.
  do 3 (erewrite bind_ok by reflexivity). cbn [attrs nbuilt].
  erewrite bind_ok by (apply init_mapping_run; exact Hmap).
  assert (keeps (fun o => o !! a = mapping_attrs c 0 (base_attrs c ∅) !! a)
            (init_encoder c ;;; init_pooling c)) as Hk.
  { apply keeps_bind; [|intros _].
    - apply (keeps_init_encoder a); [apply frame_lookup|exact Henc].
    - apply (keeps_init_pooling a); [apply frame_lookup|exact Hout]. }
  apply (Hk {| attrs := mapping_attrs c 0 (base_attrs c ∅); nbuilt := 0 + mapping_layers c |}).
  reflexivity.
Qed.

Lemma GuidanceNet_map_label c :
  mapping_builds c ->
  attrs (fst (GuidanceNet c)) !! "map_label"
  = Some (if Z.eqb (label_dim c) 0 then VNone else VLayer (map_label_layer c)).
Proof.
  intros Hmap. rewrite (GuidanceNet_mapping_attr _ _ Hmap) by discriminate.
  unfold mapping_attrs, map_label_layer.
  rewrite lookup_insert_eq.
  destruct (Z.eqb (label_dim c) 0), (Z.eqb (augment_dim c) 0); reflexivity.
Qed.

Lemma GuidanceNet_map_augment c :
  mapping_builds c ->
  attrs (fst (GuidanceNet c)) !! "map_augment"
  = Some (if Z.eqb (augment_dim c) 0 then VNone
          else VLayer {| lid := 1;
                         kind := Linear (augment_dim c) (model_channels c) false init_zero |}).
Proof.
  intros Hmap. rewrite (GuidanceNet_mapping_attr _ _ Hmap) by discriminate.
  unfold mapping_attrs.
  do 3 (rewrite lookup_insert_ne by discriminate). apply lookup_insert_eq.
Qed.


End ConstructorOutcome.

(** *** A construction that a layer cuts short *)

Lemma loop_blocks_table_length c res mult idxs st :
  length (e_tbl (fold_left (loop_block md_snoc c res mult) idxs st))
  = length (e_tbl st) + length idxs.
Proof.
  revert st. induction idxs as [|idx idxs IH]; intros st; cbn [fold_left length]; [lia|].
  rewrite IH. unfold loop_block, md_snoc. cbn [e_tbl]. rewrite length_app. cbn [length]. lia.
Qed.

Lemma loop_block_counts c res mult : counts (loop_block md_snoc c res mult).
Proof. intros st idx. cbn. lia. Qed.

Lemma loop_level_counts c : counts (loop_level md_snoc c).
Proof.
  intros st lm. unfold loop_level.
  rewrite loop_blocks_count, loop_blocks_table_length.
  unfold loop_head. destruct (Nat.eqb (fst lm) 0); cbn; lia.
Qed.

Lemma loop_block_same_locals c res mult st1 st2 idx :
  same_locals st1 st2 ->
  same_locals (loop_block md_set c res mult st1 idx)
    (loop_block md_snoc c res mult (clear st2) idx).
Proof. intros [Hc Hn]. split; cbn; congruence. Qed.

Lemma fold_same_locals {B} (gset gsnoc : EncSt -> B -> EncSt) :
  appends gsnoc ->
  (forall st1 st2 b, same_locals st1 st2 -> same_locals (gset st1 b) (gsnoc (clear st2) b)) ->
  forall l st1 st2, same_locals st1 st2 ->
    same_locals (fold_left gset l st1) (fold_left gsnoc l (clear st2)).
Proof.
  intros Happ Hstep l. induction l as [|b l IH]; intros st1 st2 HR; cbn [fold_left].
  - exact HR.
  - rewrite (fold_appends _ Happ). exact (IH _ _ (Hstep _ _ b HR)).
Qed.

Lemma loop_level_same_locals c st1 st2 lm :
  same_locals st1 st2 ->
  same_locals (loop_level md_set c st1 lm) (loop_level md_snoc c (clear st2) lm).
Proof.
  intros [Hc Hn]. unfold loop_level.
  rewrite (fold_appends _ (loop_block_appends c _ _) _ (loop_head md_snoc c (clear st2) lm)).
  apply (fold_same_locals _ _ (loop_block_appends c _ _)).
  - intros t1 t2 idx. apply loop_block_same_locals.
  - unfold loop_head. destruct (Nat.eqb (fst lm) 0); split; cbn; congruence.
Qed.

Lemma constructor_kinds_length c :
  length (constructor_kinds c) = mapping_layers c + encoder_layers c.
Proof.
  unfold constructor_kinds, encoder_kinds, stage_kinds.
  rewrite length_app, length_map.
  pose proof (loop_enc_table_counts c (mapping_layers c)) as Hc.
  pose proof (loop_enc_count c md_snoc
                {| e_tbl := []; e_cout := in_channels c; e_n := mapping_layers c |}) as Hn.
  fold (enc_built c) in Hc, Hn. unfold table_counts in Hc. cbn [e_n] in Hn.
  assert (length (mapping_kinds c) = mapping_layers c) as ->; [|lia].
  unfold mapping_kinds, mapping_layers.
  destruct (Z.eqb (augment_dim c) 0), (Z.eqb (label_dim c) 0); reflexivity.
Qed.

Lemma mapping_kinds_length c : length (mapping_kinds c) = mapping_layers c.
Proof.
  unfold mapping_kinds, mapping_layers.
  destruct (Z.eqb (augment_dim c) 0), (Z.eqb (label_dim c) 0); reflexivity.
Qed.

Section ConstructorFailure.
Context `{LL : LayerLibrary}.

Lemma first_error_None ks : first_error ks = None <-> Forall builds ks.
Proof.
  unfold builds. induction ks as [|k ks IH]; cbn [first_error].
  - split; [constructor|reflexivity].
  - destruct (layer_raises k) as [e|] eqn:E.
    + split; [discriminate|]. intros H. apply Forall_inv in H. congruence.
    + destruct (first_error ks) as [[i e]|].
      * split; [discriminate|]. intros H. apply Forall_inv_tail, IH in H. discriminate.
      * split; [|reflexivity]. intros _. constructor; [exact E|]. apply IH. reflexivity.
Qed.

Lemma first_error_app a b :
  first_error (a ++ b)
  = match first_error a with
    | Some r => Some r
    | None =>
        match first_error b with
        | Some (i, e) => Some (length a + i, e)
        | None => None
        end
    end.
Proof.
  induction a as [|k a IH]; cbn [first_error app length].
  - destruct (first_error b) as [[i e]|]; reflexivity.
  - destruct (layer_raises k); [reflexivity|]. rewrite IH.
    destruct (first_error a) as [[i e]|]; [reflexivity|].
    destruct (first_error b) as [[i e]|]; reflexivity.
Qed.

Lemma stage_kinds_length t : length (stage_kinds t) = length t.
Proof. apply length_map. Qed.

(** A loop in the monad against the same loop on the explicit locals,
    whether or not the layers build. *)
Lemma foldM_outcome {B} (f : Z -> B -> Init Z) (gset gsnoc : EncSt -> B -> EncSt) m :
  appends gsnoc -> counts gsnoc ->
  (forall st1 st2 b, same_locals st1 st2 -> same_locals (gset st1 b) (gsnoc (clear st2) b)) ->
  (forall st1 st2 b, same_locals st1 st2 ->
     outcome (e_n st1) (stage_kinds (e_tbl (gsnoc (clear st2) b)))
       (conc m (gset st1 b), Ok (e_cout (gset st1 b)))
       (f (e_cout st1) b (conc m st1))) ->
  forall l st1 st2, same_locals st1 st2 ->
    outcome (e_n st1) (stage_kinds (e_tbl (fold_left gsnoc l (clear st2))))
      (conc m (fold_left gset l st1), Ok (e_cout (fold_left gset l st1)))
      (foldM f (e_cout st1) l (conc m st1)).
Proof.
  intros Happ Hcnt Hsame Hstep l.
  induction l as [|b l IH]; intros st1 st2 HR; cbn [fold_left foldM].
  - reflexivity.
  - rewrite (fold_appends _ Happ). unfold prepend. cbn [e_tbl].
    rewrite stage_kinds_app. unfold outcome. rewrite first_error_app.
    pose proof (Hstep st1 st2 b HR) as Hb. unfold outcome in Hb.
    pose proof (Hsame st1 st2 b HR) as HR'.
    pose proof (IH _ _ HR') as Hl. unfold outcome in Hl.
    destruct (first_error (stage_kinds (e_tbl (gsnoc (clear st2) b)))) as [[i e]|].
    + destruct Hb as (s' & Hrun & Hn). exists s'. split; [|exact Hn].
      erewrite bind_raise by exact Hrun. reflexivity.
    + erewrite bind_ok by exact Hb.
      destruct (first_error
                  (stage_kinds (e_tbl (fold_left gsnoc l (clear (gsnoc (clear st2) b))))))
        as [[i e]|]; [|exact Hl].
      destruct Hl as (s' & Hrun & Hn). exists s'. split; [exact Hrun|].
      rewrite Hn, stage_kinds_length.
      destruct HR as [_ HRn]. destruct HR' as [_ HRn'].
      rewrite HRn', (Hcnt st2 b), HRn. lia.
Qed.

Lemma enc_block_outcome c m res mult st1 st2 idx :
  same_locals st1 st2 ->
  outcome (e_n st1) (stage_kinds (e_tbl (loop_block md_snoc c res mult (clear st2) idx)))
    (conc m (loop_block md_set c res mult st1 idx),
     Ok (e_cout (loop_block md_set c res mult st1 idx)))
    (enc_block c res mult (e_cout st1) idx (conc m st1)).
Proof.
  intros [Hc Hn]. unfold outcome. cbn [loop_block clear e_tbl e_cout md_snoc app stage_kinds
                                        map snd kind first_error].
  rewrite <- Hc.
  destruct (layer_raises (UNetBlock (e_cout st1) (model_channels c * mult) false
                            (Z_in res (attn_resolutions c)) (block_kwargs c))) as [e|] eqn:E.
  - exists (conc m st1). split; [|cbn; lia].
    unfold enc_block, bind, new_layer. cbv zeta. rewrite E. reflexivity.
  - apply enc_block_run. exact E.
Qed.

Lemma enc_level_outcome c m st1 st2 lm :
  same_locals st1 st2 ->
  outcome (e_n st1) (stage_kinds (e_tbl (loop_level md_snoc c (clear st2) lm)))
    (conc m (loop_level md_set c st1 lm), Ok (e_cout (loop_level md_set c st1 lm)))
    (enc_level c (e_cout st1) lm (conc m st1)).
Proof.
  intros HR. unfold loop_level.
  rewrite (fold_appends _ (loop_block_appends c _ _) _ (loop_head md_snoc c (clear st2) lm)).
  unfold prepend. cbn [e_tbl]. rewrite stage_kinds_app.
  unfold outcome. rewrite first_error_app.
  assert (same_locals (loop_head md_set c st1 lm) (loop_head md_snoc c (clear st2) lm)) as HR'.
  { destruct HR as [Hc Hn]. unfold loop_head.
    destruct (Nat.eqb (fst lm) 0); split; cbn; congruence. }
  pose proof (foldM_outcome
                (enc_block c (img_resolution c ≫ Z.of_nat (fst lm)) (snd lm))
                (loop_block md_set c (img_resolution c ≫ Z.of_nat (fst lm)) (snd lm))
                (loop_block md_snoc c (img_resolution c ≫ Z.of_nat (fst lm)) (snd lm)) m
                (loop_block_appends c _ _) (loop_block_counts c _ _)
                (fun t1 t2 idx Ht => loop_block_same_locals c _ _ t1 t2 idx Ht)
                (fun t1 t2 idx Ht => enc_block_outcome c m _ _ t1 t2 idx Ht)
                (range (num_blocks c)) _ _ HR') as Hblocks.
  unfold outcome in Hblocks.
  set (blocks := stage_kinds
                   (e_tbl (fold_left
                             (loop_block md_snoc c (img_resolution c ≫ Z.of_nat (fst lm)) (snd lm))
                             (range (num_blocks c))
                             (clear (loop_head md_snoc c (clear st2) lm))))) in *.
  assert (e_n (loop_head md_set c st1 lm) = S (e_n st1)) as Hn1.
  { unfold loop_head. destruct (Nat.eqb (fst lm) 0); reflexivity. }
  assert (length (stage_kinds (e_tbl (loop_head md_snoc c (clear st2) lm))) = 1) as Hlen.
  { unfold loop_head. destruct (Nat.eqb (fst lm) 0); reflexivity. }
  rewrite Hlen. rewrite Hn1 in Hblocks.
  unfold enc_level. cbv zeta.
  destruct HR as [Hc Hn]. unfold loop_head in *.
  destruct (Nat.eqb (fst lm) 0);
    cbn [clear e_tbl e_cout md_snoc app stage_kinds map snd kind first_error] in *;
    rewrite <- Hc in *;
    match goal with
    | |- context [layer_raises ?k] => destruct (layer_raises k) as [e|] eqn:E
    end.
  - exists (conc m st1). split; [|cbn; lia].
    unfold bind at 1 2, new_layer. rewrite E. reflexivity.
  - erewrite bind_ok by (apply stage_run; exact E).
    destruct (first_error blocks) as [[i e]|]; [|exact Hblocks].
    destruct Hblocks as (s' & Hrun & Hn'). exists s'. split; [exact Hrun|]. lia.
  - exists (conc m st1). split; [|cbn; lia].
    unfold bind at 1 2, new_layer. rewrite E. reflexivity.
  - erewrite bind_ok by (apply stage_run; exact E).
    destruct (first_error blocks) as [[i e]|]; [|exact Hblocks].
    destruct Hblocks as (s' & Hrun & Hn'). exists s'. split; [exact Hrun|]. lia.
Qed.

Lemma init_encoder_outcome c m n :
  outcome n
    (stage_kinds (e_tbl (loop_enc md_snoc c {| e_tbl := []; e_cout := in_channels c; e_n := n |})))
    (conc m (loop_enc md_set c {| e_tbl := []; e_cout := in_channels c; e_n := n |}), Ok tt)
    (init_encoder c {| attrs := m; nbuilt := n |}).
Proof.
  pose proof (foldM_outcome (enc_level c) (loop_level md_set c) (loop_level md_snoc c) m
                (loop_level_appends c) (loop_level_counts c)
                (fun t1 t2 lm Ht => loop_level_same_locals c t1 t2 lm Ht)
                (fun t1 t2 lm Ht => enc_level_outcome c m t1 t2 lm Ht)
                (enumerate (channel_mult c))
                {| e_tbl := []; e_cout := in_channels c; e_n := n |}
                {| e_tbl := []; e_cout := in_channels c; e_n := n |}
                (conj eq_refl eq_refl)) as Hloop.
  unfold outcome in *. unfold loop_enc.
  change (clear {| e_tbl := []; e_cout := in_channels c; e_n := n |})
    with {| e_tbl := []; e_cout := in_channels c; e_n := n |} in Hloop.
  cbn [e_n e_cout] in Hloop.
  destruct (first_error
              (stage_kinds
                 (e_tbl (fold_left (loop_level md_snoc c) (enumerate (channel_mult c))
                           {| e_tbl := []; e_cout := in_channels c; e_n := n |}))))
    as [[i e]|] eqn:Efirst.
  - destruct Hloop as (s' & Hrun & Hn). exists s'. split; [|exact Hn].
    unfold init_encoder. erewrite bind_ok by reflexivity.
    erewrite bind_raise; [reflexivity|]. exact Hrun.
  - apply init_encoder_run. apply first_error_None. exact Efirst.
Qed.

Lemma init_mapping_outcome c m n :
  outcome n (mapping_kinds c)
    ({| attrs := mapping_attrs c n m; nbuilt := n + mapping_layers c |}, Ok tt)
    (init_mapping c {| attrs := m; nbuilt := n |}).
Proof.
  unfold outcome.
  destruct (first_error (mapping_kinds c)) as [[i e]|] eqn:Efirst.
  - revert Efirst.
    unfold mapping_kinds, init_mapping, bind, new_layer, setattr, ret.
    destruct (Z.eqb (augment_dim c) 0), (Z.eqb (label_dim c) 0);
      cbn [app first_error attrs nbuilt];
      repeat (match goal with
              | |- context [layer_raises ?k] => destruct (layer_raises k)
              end; cbn [first_error attrs nbuilt]);
      intros [= <- <-] || discriminate;
      (eexists; split; [reflexivity|cbn [nbuilt]; lia]).
  - apply init_mapping_run. apply first_error_None. exact Efirst.
Qed.

(** When a call before the pooling section is turned down, the
    construction raises what the first such call raises, with the layers
    before it built and [self.out] not assigned. *)
Lemma GuidanceNet_first_error c i e :
  first_error (constructor_kinds c) = Some (i, e) ->
  snd (GuidanceNet c) = Raise e
  /\ nbuilt (fst (GuidanceNet c)) = i
  /\ attrs (fst (GuidanceNet c)) !! "out" = None.
Proof.
  unfold constructor_kinds. rewrite first_error_app, mapping_kinds_length. intros Hfirst.
  unfold GuidanceNet, construct, __init__, Module_init.
  do 3 (erewrite bind_ok by reflexivity). cbn [attrs nbuilt].
  pose proof (init_mapping_outcome c (base_attrs c ∅) 0) as Hmap. unfold outcome in Hmap.
  assert ("out" ∉ ["map_noise"; "map_augment"; "map_layer0"; "map_layer1"; "map_label"])
    as Hnames by not_among.
  assert ("out" <> "enc") as Hne by discriminate.
  pose proof (keeps_init_mapping "out" (fun o => o !! "out" = None) c
                (frame_lookup "out" None) Hnames
                {| attrs := base_attrs c ∅; nbuilt := 0 |} eq_refl) as Hout.
  destruct (first_error (mapping_kinds c)) as [[j e']|].
  - injection Hfirst as -> ->. destruct Hmap as (s' & Hrun & Hn).
    unfold base_attrs in *. rewrite Hrun in Hout. cbn [fst] in Hout.
    erewrite bind_raise by exact Hrun. cbn [fst snd].
    split; [reflexivity|]. split; [lia|exact Hout].
  - unfold base_attrs in *. erewrite bind_ok by exact Hmap. clear Hout.
    change (0 + mapping_layers c) with (mapping_layers c).
    pose proof (init_encoder_outcome c (mapping_attrs c 0 (base_attrs c ∅))
                  (mapping_layers c)) as Henc.
    unfold outcome in Henc. fold (enc_built c) in Henc. fold (encoder_kinds c) in Henc.
    pose proof (keeps_init_encoder "out" (fun o => o !! "out" = None) c
                  (frame_lookup "out" None) Hne
                  {| attrs := mapping_attrs c 0 (base_attrs c ∅);
                     nbuilt := mapping_layers c |} eq_refl) as Hout.
    destruct (first_error (encoder_kinds c)) as [[j e']|]; [|discriminate].
    injection Hfirst as <- ->. destruct Henc as (s' & Hrun & Hn).
    unfold base_attrs in *. rewrite Hrun in Hout. cbn [fst] in Hout.
    erewrite bind_raise by exact Hrun.
    cbn [fst snd]. split; [reflexivity|]. split; [|exact Hout].
    rewrite Hn. unfold mapping_layers.
    destruct (Z.eqb (augment_dim c) 0), (Z.eqb (label_dim c) 0); lia.
Qed.

Lemma first_error_lt ks i e : first_error ks = Some (i, e) -> i < length ks.
Proof.
  revert i. induction ks as [|k ks IH]; intros i; cbn [first_error length]; [discriminate|].
  destruct (layer_raises k); [intros [= <- _]; lia|].
  destruct (first_error ks) as [[j e']|]; [|discriminate].
  intros [= <- <-]. specialize (IH j eq_refl). lia.
Qed.

Lemma layers_build_first_error c :
  layers_build c <-> first_error (constructor_kinds c) = None.
Proof.
  unfold layers_build, mapping_builds, encoder_builds, constructor_kinds.
  rewrite first_error_None, Forall_app. reflexivity.
Qed.

End ConstructorFailure.

(** With pairwise distinct keys the table holds the stages in the order
    they were built. *)
Lemma enc_final_built c :
  NoDup (stage_keys c) -> e_tbl (enc_final c) = e_tbl (enc_built c).
Proof.
  intros Hnd.
  destruct (loop_enc_md_of_list c
              {| e_tbl := []; e_cout := in_channels c; e_n := mapping_layers c |} eq_refl)
    as (_ & _ & Ht).
  unfold enc_final. rewrite Ht. fold (enc_built c).
  rewrite md_of_list_NoDup; [reflexivity|].
  simpl. unfold enc_built, loop_enc. rewrite loop_levels_keys. exact Hnd.
Qed.

(** ** Construction: the claims *)

(** C1.  The documented usage [GuidanceNet(img_resolution=16, in_channels=2,
    out_channels=2)] does not produce a module to call: with every layer
    library under which the layers of this configuration build, the
    constructor raises on [self._feature_size] after 19 layers are built,
    so no output of shape (batch_size, out_channels) is ever returned. *)
Theorem documented_example_raises `{LL : LayerLibrary} :
  layers_build (default_config 16 2 2) ->
  snd (GuidanceNet (default_config 16 2 2)) = Raise (AttributeError "_feature_size")
  /\ nbuilt (fst (GuidanceNet (default_config 16 2 2))) = 19
  /\ out_table (fst (GuidanceNet (default_config 16 2 2))) = [].
Proof.
  intros Hb. pose proof (GuidanceNet_nbuilt _ Hb) as Hn.
  rewrite (GuidanceNet_run _ Hb) in *.
  change (String.eqb (pool (default_config 16 2 2)) "spatial") with true in *.
  cbn [fst snd] in *. refine (conj eq_refl (conj Hn _)).
  unfold out_table. cbn [attrs]. rewrite lookup_insert_eq. reflexivity.
Qed.

Lemma documented_example_raises_witness :
  layers_build (LL := strict_sizes) (default_config 16 2 2)
  /\ snd (GuidanceNet (LL := strict_sizes) (default_config 16 2 2))
     = Raise (AttributeError "_feature_size")
  /\ nbuilt (fst (GuidanceNet (LL := strict_sizes) (default_config 16 2 2))) = 19.
Proof.
  assert (layers_build (LL := strict_sizes) (default_config 16 2 2)) as Hb
    by (split; apply all_build_Forall; vm_compute; reflexivity).
  split; [exact Hb|].
  destruct (documented_example_raises (LL := strict_sizes) Hb) as (H1 & H2 & _).
  split; [exact H1|exact H2].
Defined.

(** C2, as stated, fails: with [pool = "avg"] the error is raised, but 19
    layers have been built by then, the noise embedding first. *)
Lemma unsupported_pool_layers_already_built :
  pool avg_config <> "spatial"
  /\ snd (GuidanceNet (LL := strict_sizes) avg_config)
     = Raise (NotImplementedError "Unexpected avg pooling")
  /\ nbuilt (fst (GuidanceNet (LL := strict_sizes) avg_config)) <> 0
  /\ nbuilt (fst (GuidanceNet (LL := strict_sizes) avg_config)) = 19
  /\ attrs (fst (GuidanceNet (LL := strict_sizes) avg_config)) !! "map_noise"
     = Some (VLayer {| lid := 0; kind := PositionalEmbedding 192 |}).
Proof. vm_compute. repeat split; discriminate. Qed.

(** C2, amended.  For every configuration whose pool is not "spatial" and
    whose mapping and encoder layers build, the constructor raises
    NotImplementedError; the check is the last statement of the
    constructor, so the mapping and encoder layers are all built by then
    and only the pooling head is not. *)
Theorem unsupported_pool_raises `{LL : LayerLibrary} (c : Config) :
  pool c <> "spatial" ->
  layers_build c ->
  snd (GuidanceNet c) = Raise (NotImplementedError ("Unexpected " +:+ pool c +:+ " pooling"))
  /\ nbuilt (fst (GuidanceNet c)) = mapping_layers c + encoder_layers c
  /\ attrs (fst (GuidanceNet c)) !! "map_noise"
     = Some (VLayer {| lid := 0; kind := PositionalEmbedding (model_channels c) |})
  /\ enc_table (fst (GuidanceNet c)) = e_tbl (enc_final c)
  /\ attrs (fst (GuidanceNet c)) !! "out" = None.
Proof.
  intros Hpool Hb. pose proof (GuidanceNet_enc_table c Hb) as Henc.
  rewrite (GuidanceNet_run _ Hb) in *.
  destruct (String.eqb_spec (pool c) "spatial") as [E|_]; [contradiction|].
  cbn [fst snd]. refine (conj eq_refl (conj _ (conj _ (conj _ _)))).
  - apply at_pooling_nbuilt.
  - unfold at_pooling, conc, mapping_attrs. cbn [attrs].
    do 5 (rewrite lookup_insert_ne by discriminate). apply lookup_insert_eq.
  - exact Henc.
  - rewrite at_pooling_lookup; [apply lookup_empty|not_among].
Qed.

Lemma unsupported_pool_raises_witness :
  pool (IntKernels.small_config_pool "max") <> "spatial"
  /\ layers_build (LL := strict_sizes) (IntKernels.small_config_pool "max")
  /\ snd (GuidanceNet (LL := strict_sizes) (IntKernels.small_config_pool "max"))
     = Raise (NotImplementedError "Unexpected max pooling")
  /\ nbuilt (fst (GuidanceNet (LL := strict_sizes) (IntKernels.small_config_pool "max"))) = 7.
Proof.
  assert (Hp : pool (IntKernels.small_config_pool "max") <> "spatial") by discriminate.
  assert (layers_build (LL := strict_sizes) (IntKernels.small_config_pool "max")) as Hb
    by (split; apply all_build_Forall; vm_compute; reflexivity).
  destruct (unsupported_pool_raises (LL := strict_sizes) _ Hp Hb) as (H1 & H2 & _).
  split; [exact Hp|]. split; [exact Hb|]. split; [exact H1|exact H2].
Defined.

(** A layer that does not build ends the construction before the pooling
    check is reached: with a multiplier of 0 the first block of the second
    level is asked for 0 output channels, and the construction raises what
    that constructor raises, six layers and three table entries in. *)
Example unsupported_pool_zero_multiplier :
  snd (GuidanceNet (LL := strict_sizes) zero_mult_config) = Raise ZeroDivisionError
  /\ nbuilt (fst (GuidanceNet (LL := strict_sizes) zero_mult_config)) = 6
  /\ md_keys (enc_table (fst (GuidanceNet (LL := strict_sizes) zero_mult_config)))
     = ["4x4_conv"; "4x4_block0"; "2x2_down"].
Proof. vm_compute. repeat split. Qed.




(** Line 204, when [_feature_size] resolves to an integer and the layer
    builds. *)
Lemma pooling_linear_in_run `{LL : LayerLibrary} c cls fs :
  cls !! "_feature_size" = Some (VInt fs) ->
  builds (Linear fs 2048 true init_default) ->
  (let* v := getattr "_feature_size" in
   let* n := lift (as_int v) in
   let* l := new_layer (Linear n 2048 true init_default) in
   setitem "out" "linear_in" (VLayer l))
    {| attrs := <["out" := VModuleDict []]> (attrs (at_pooling c cls));
       nbuilt := nbuilt (at_pooling c cls) |}
  = (at_linear_in c cls fs, Ok tt).
Proof.
  intros Hfs Hb.
  assert (getattr "_feature_size"
            {| attrs := <["out" := VModuleDict []]> (attrs (at_pooling c cls));
               nbuilt := nbuilt (at_pooling c cls) |}
          = ({| attrs := <["out" := VModuleDict []]> (attrs (at_pooling c cls));
                nbuilt := nbuilt (at_pooling c cls) |}, Ok (VInt fs))) as Hget.
  { unfold getattr, getattr_. cbn [attrs].
    rewrite lookup_insert_ne by discriminate.
    rewrite at_pooling_lookup, Hfs; [reflexivity|not_among]. }
  erewrite bind_ok by exact Hget.
  erewrite bind_ok by reflexivity.
  erewrite bind_ok by (apply new_layer_run; exact Hb).
  unfold setitem, bind, getattr, getattr_, setattr, at_linear_in. cbn [attrs nbuilt].
  rewrite lookup_insert_eq. cbn [md_set attrs nbuilt]. rewrite insert_insert_eq. reflexivity.
Qed.

(** A module dictionary takes a module under any key. *)
Lemma setitem_module_accepted `{LL : LayerLibrary} attr key l d s :
  attrs s !! attr = Some (VModuleDict d) ->
  setitem attr key (VLayer l) s
  = ({| attrs := <[attr := VModuleDict (md_set key l d)]> (attrs s); nbuilt := nbuilt s |},
     Ok tt).
Proof.
  intros E. unfold setitem, bind, getattr, getattr_, setattr. rewrite E. reflexivity.
Qed.

(** C4, as stated, fails: in the documented construction nothing is
    assigned to the "group_norm" entry.  The construction ends at the line
    before (the read of [self._feature_size]) with the layers of the
    mapping and encoder sections built and no group normalisation among
    the 19, and [self.out] holds no entry at all. *)
Lemma group_norm_entry_never_assigned :
  pool (default_config 16 2 2) = "spatial"
  /\ snd (GuidanceNet (LL := strict_sizes) (default_config 16 2 2))
     = Raise (AttributeError "_feature_size")
  /\ nbuilt (fst (GuidanceNet (LL := strict_sizes) (default_config 16 2 2)))
     = mapping_layers (default_config 16 2 2) + encoder_layers (default_config 16 2 2)
  /\ md_get "group_norm" (out_table (fst (GuidanceNet (LL := strict_sizes) (default_config 16 2 2))))
     = None
  /\ out_table (fst (GuidanceNet (LL := strict_sizes) (default_config 16 2 2))) = [].
Proof. vm_compute. repeat split. Qed.

(** C4, amended.  In spatial pooling mode, with the mapping and encoder
    layers built, the statement for the pooling head's "group_norm" entry
    (line 205) is not reached by [GuidanceNet] itself, whose construction
    ends at the read of [self._feature_size] without a group normalisation
    built.  On an object on which [_feature_size] resolves to an integer
    [fs] before [__init__] runs, and with the layers [Linear(fs, 2048)] and
    [GroupNorm(2048)] building, the statement is reached: what it hands to
    the module dictionary is a one-element tuple holding the freshly built
    [GroupNorm(2048)] layer, not the layer.  The dictionary turns the tuple
    down, the construction ends with that error, and "linear_in" stays the
    only entry of [self.out]. *)
Theorem group_norm_entry_is_tuple `{LL : LayerLibrary} (c : Config) :
  pool c = "spatial" ->
  layers_build c ->
  (snd (GuidanceNet c) = Raise (AttributeError "_feature_size")
   /\ nbuilt (fst (GuidanceNet c)) = mapping_layers c + encoder_layers c
   /\ out_table (fst (GuidanceNet c)) = [])
  /\ (forall (cls : Obj) (fs : Z),
        cls !! "_feature_size" = Some (VInt fs) ->
        builds (Linear fs 2048 true init_default) ->
        builds (GroupNorm 2048) ->
        snd (construct cls c)
        = Raise (not_a_module
                   (VTuple [VLayer {| lid := S (mapping_layers c + encoder_layers c);
                                      kind := GroupNorm 2048 |}]))
        /\ nbuilt (fst (construct cls c)) = S (S (mapping_layers c + encoder_layers c))
        /\ md_keys (out_table (fst (construct cls c))) = ["linear_in"]
        /\ md_get "group_norm" (out_table (fst (construct cls c))) = None).
Proof.
  intros Hpool Hb. split.
  - pose proof (GuidanceNet_nbuilt _ Hb) as Hn.
    rewrite (GuidanceNet_run _ Hb) in *. rewrite Hpool, String.eqb_refl in *.
    cbn [fst snd] in *. refine (conj eq_refl (conj Hn _)).
    unfold out_table. cbn [attrs]. rewrite lookup_insert_eq. reflexivity.
  - intros cls fs Hfs Hlin Hgn.
    assert (construct cls c
            = ({| attrs := attrs (at_linear_in c cls fs);
                  nbuilt := S (nbuilt (at_linear_in c cls fs)) |},
               Raise (not_a_module
                        (VTuple [VLayer {| lid := nbuilt (at_linear_in c cls fs);
                                           kind := GroupNorm 2048 |}])))) as Hrun.
    { unfold construct. rewrite (init_prefix_run _ _ Hb). unfold init_pooling.
      rewrite Hpool, String.eqb_refl.
      erewrite bind_ok by reflexivity. cbn [attrs nbuilt].
      erewrite bind_ok by (apply (pooling_linear_in_run c cls fs); assumption).
      erewrite bind_raise; [reflexivity|].
      erewrite bind_ok by (apply new_layer_run; exact Hgn).
      unfold setitem, bind, getattr, getattr_, raise, at_linear_in. cbn [attrs nbuilt].
      rewrite lookup_insert_eq. reflexivity. }
    rewrite Hrun. unfold at_linear_in, out_table. cbn [fst snd attrs nbuilt].
    rewrite lookup_insert_eq, at_pooling_nbuilt. repeat split.
Qed.

Lemma group_norm_entry_is_tuple_witness :
  pool (default_config 16 2 2) = "spatial"
  /\ layers_build (LL := strict_sizes) (default_config 16 2 2)
  /\ ({["_feature_size" := VInt 512]} : Obj) !! "_feature_size" = Some (VInt 512)
  /\ builds (LL := strict_sizes) (Linear 512 2048 true init_default)
  /\ builds (LL := strict_sizes) (GroupNorm 2048)
  /\ snd (construct (LL := strict_sizes) {["_feature_size" := VInt 512]} (default_config 16 2 2))
     = Raise (TypeError "tuple is not a Module subclass")
  /\ snd (GuidanceNet (LL := strict_sizes) (default_config 16 2 2))
     = Raise (AttributeError "_feature_size").
Proof.
  assert (layers_build (LL := strict_sizes) (default_config 16 2 2)) as Hb
    by (split; apply all_build_Forall; vm_compute; reflexivity).
  assert (({["_feature_size" := VInt 512]} : Obj) !! "_feature_size" = Some (VInt 512))
    as Hfs by reflexivity.
  assert (builds (LL := strict_sizes) (Linear 512 2048 true init_default)) as Hlin
    by reflexivity.
  assert (builds (LL := strict_sizes) (GroupNorm 2048)) as Hgn by reflexivity.
  destruct (group_norm_entry_is_tuple (LL := strict_sizes) (default_config 16 2 2) eq_refl Hb)
    as ((Hnet & _) & Hcls).
  destruct (Hcls {["_feature_size" := VInt 512]} 512%Z Hfs Hlin Hgn) as (Hrun & _).
  split; [reflexivity|]. split; [exact Hb|]. split; [exact Hfs|].
  split; [exact Hlin|]. split; [exact Hgn|]. split; [exact Hrun|exact Hnet].
Defined.

(** The line before needs its own layer: with [_feature_size = 0] the
    construction ends in [Linear(0, 2048)] and line 205 is not reached. *)
Example group_norm_line_needs_linear_in :
  snd (construct (LL := strict_sizes) {["_feature_size" := VInt 0]} (default_config 16 2 2))
  = Raise ZeroDivisionError
  /\ nbuilt (fst (construct (LL := strict_sizes) {["_feature_size" := VInt 0]}
                    (default_config 16 2 2))) = 19.
Proof. vm_compute. repeat split. Qed.

(** ** Keys determine the resolution and the role *)

Lemma pretty_N_char_not_x d : pretty_N_char d <> "x"%char.
Proof. unfold pretty_N_char. repeat case_match; discriminate. Qed.

Lemma pretty_N_go_no_x x s :
  occurs "x" s = false -> occurs "x" (pretty_N_go x s) = false.
Proof.
  revert s. induction (N.lt_wf_0 x) as [x _ IH]; intros s Hs.
  destruct (decide (x = 0)%N) as [->|Hx]; [rewrite pretty_N_go_0; exact Hs|].
  rewrite pretty_N_go_step by lia. apply IH; [apply N.div_lt; lia|].
  cbn [occurs]. rewrite Hs, orb_false_r.
  apply Ascii.eqb_neq. intros E. exact (pretty_N_char_not_x _ (eq_sym E)).
Qed.

Lemma pretty_Z_no_x (z : Z) : occurs "x" (pretty z) = false.
Proof.
  assert (forall p : positive, occurs "x" (pretty p) = false) as Hpos.
  { intros q. unfold pretty, pretty_positive, pretty, pretty_N.
    case_decide; [reflexivity|]. apply pretty_N_go_no_x. reflexivity. }
  destruct z as [|q|q]; unfold pretty, pretty_Z; [reflexivity|apply Hpos|].
  simpl. apply Hpos.
Qed.

(** Two strings cut at the first occurrence of a character. *)
Lemma append_split a s1 s2 t1 t2 :
  occurs a s1 = false -> occurs a s2 = false ->
  s1 +:+ String a t1 = s2 +:+ String a t2 -> s1 = s2 /\ t1 = t2.
Proof.
  revert s2. induction s1 as [|b s1 IH]; intros [|b' s2];
    cbn [occurs String.append]; intros H1 H2 E.
  - injection E as ->. auto.
  - injection E as -> _. rewrite Ascii.eqb_refl in H2. discriminate.
  - injection E as -> _. rewrite Ascii.eqb_refl in H1. discriminate.
  - injection E as -> E. apply orb_false_elim in H1 as [_ H1].
    apply orb_false_elim in H2 as [_ H2].
    destruct (IH s2 H1 H2 E) as [-> ->]. auto.
Qed.

Lemma stage_key_inj r r' s s' :
  stage_key r s = stage_key r' s' -> r = r' /\ s = s'.
Proof.
  unfold stage_key. intros E.
  change ("x" +:+ pretty r +:+ s) with (String "x" (pretty r +:+ s)) in E.
  change ("x" +:+ pretty r' +:+ s') with (String "x" (pretty r' +:+ s')) in E.
  apply append_split in E as [Hr E]; [|apply pretty_Z_no_x..].
  apply (inj pretty) in Hr as ->. split; [reflexivity|].
  exact (inj (String.app (pretty r')) _ _ E).
Qed.

Lemma level_keys_stage_key c lm k :
  k ∈ level_keys c lm ->
  exists suffix, k = stage_key (img_resolution c ≫ Z.of_nat (fst lm)) suffix.
Proof.
  unfold level_keys. intros Hk. apply elem_of_cons in Hk as [->|Hk].
  - destruct (Nat.eqb (fst lm) 0); [exists "_conv"|exists "_down"]; reflexivity.
  - apply list_elem_of_In, in_map_iff in Hk as (idx & <- & _).
    exists ("_block" +:+ pretty idx). reflexivity.
Qed.

Lemma level_keys_NoDup c lm : NoDup (level_keys c lm).
Proof.
  unfold level_keys. apply NoDup_cons. split.
  - intros Hk. apply list_elem_of_In, in_map_iff in Hk as (idx & E & _).
    assert (exists suffix, "_block" +:+ pretty idx = suffix
                           /\ (suffix = "_conv" \/ suffix = "_down")) as (sf & Esf & Hsf).
    { destruct (Nat.eqb (fst lm) 0).
      - apply (stage_key_inj _ _ ("_block" +:+ pretty idx) "_conv") in E as [_ E]. eauto.
      - apply (stage_key_inj _ _ ("_block" +:+ pretty idx) "_down") in E as [_ E]. eauto. }
    subst sf. destruct Hsf as [Hsf|Hsf]; simpl in Hsf; discriminate Hsf.
  - change (map (key_block (img_resolution c ≫ Z.of_nat (fst lm))) (range (num_blocks c)))
      with (key_block (img_resolution c ≫ Z.of_nat (fst lm)) <$> range (num_blocks c)).
    apply NoDup_fmap_2_strong; [|apply NoDup_seq].
    intros i j _ _ E.
    apply (stage_key_inj _ _ ("_block" +:+ pretty i) ("_block" +:+ pretty j)) in E as [_ E].
    apply (inj (String.app "_block")) in E. exact (inj pretty _ _ E).
Qed.

(** Levels with pairwise distinct resolutions have pairwise distinct
    keys. *)
Lemma distinct_resolutions_distinct_keys c :
  NoDup (level_resolutions c) -> NoDup (stage_keys c).
Proof.
  unfold level_resolutions, stage_keys.
  induction (enumerate (channel_mult c)) as [|lm lms IH]; cbn [flat_map map]; intros Hnd.
  - constructor.
  - apply NoDup_cons in Hnd as [Hnotin Hnd].
    apply NoDup_app. split; [apply level_keys_NoDup|]. split; [|apply IH, Hnd].
    intros k Hk Hk'.
    apply level_keys_stage_key in Hk as (sf & ->).
    apply list_elem_of_In, in_flat_map in Hk' as (lm' & Hlm' & Hk').
    apply list_elem_of_In, level_keys_stage_key in Hk' as (sf' & E).
    apply stage_key_inj in E as [E _].
    apply Hnotin. rewrite E. apply list_elem_of_In.
    exact (in_map (fun lm => (img_resolution c ≫ Z.of_nat (fst lm))%Z) lms lm' Hlm').
Qed.

Lemma shiftr_strictly_decreasing (r : Z) (l l' : nat) :
  l < l' -> (0 < r ≫ Z.of_nat l)%Z -> (r ≫ Z.of_nat l' < r ≫ Z.of_nat l)%Z.
Proof.
  intros Hl Hpos.
  replace (Z.of_nat l') with (Z.of_nat l + Z.of_nat (l' - l))%Z by lia.
  rewrite <- Z.shiftr_shiftr by lia.
  rewrite (Z.shiftr_div_pow2 (r ≫ Z.of_nat l)) by lia.
  apply Z.div_lt; [exact Hpos|].
  replace (Z.of_nat (l' - l)) with (Z.succ (Z.of_nat (l' - l - 1))) by lia.
  rewrite Z.pow_succ_r by lia.
  pose proof (Z.pow_pos_nonneg 2 (Z.of_nat (l' - l - 1)) ltac:(lia) ltac:(lia)). lia.
Qed.

(** Halving keeps producing new resolutions as long as the resolution is
    still positive: it is enough that it is positive at every level but
    the last. *)
Lemma positive_resolutions_distinct c :
  (forall l, S l < length (channel_mult c) -> (0 < img_resolution c ≫ Z.of_nat l)%Z) ->
  NoDup (level_resolutions c).
Proof.
  unfold level_resolutions, enumerate.
  assert (forall ms k,
            (forall l, k <= l -> S l < k + length ms -> (0 < img_resolution c ≫ Z.of_nat l)%Z) ->
            NoDup (map (fun lm : nat * Z => (img_resolution c ≫ Z.of_nat (fst lm))%Z)
                     (combine (seq k (length ms)) ms))) as Hgen.
  { induction ms as [|m ms IH]; intros k Hpos; cbn [length seq combine map].
    - constructor.
    - apply NoDup_cons. split.
      + intros Hin. apply list_elem_of_In, in_map_iff in Hin as ([l m'] & E & Hin).
        apply in_combine_l, in_seq in Hin. cbn [fst] in *.
        pose proof (shiftr_strictly_decreasing (img_resolution c) k l ltac:(lia)
                      (Hpos k ltac:(lia) ltac:(simpl; lia))).
        lia.
      + apply IH. intros l Hl1 Hl2. apply Hpos; simpl; lia. }
  intros Hpos. apply Hgen. intros l _ Hl. apply Hpos. lia.
Qed.

(** ** The encoder table: the claims *)

Lemma loop_blocks_head c res mult idxs st k v :
  head (e_tbl st) = Some (k, v) ->
  head (e_tbl (fold_left (loop_block md_snoc c res mult) idxs st)) = Some (k, v).
Proof.
  revert st. induction idxs as [|idx idxs IH]; intros st Hst; simpl; [exact Hst|].
  apply IH. unfold loop_block, md_snoc. simpl.
  destruct (e_tbl st); simpl in *; congruence.
Qed.

(** The first stage built is the level-0 convolution. *)
Lemma enc_built_head c m0 ms :
  channel_mult c = m0 :: ms ->
  head (md_values (e_tbl (enc_built c)))
  = Some {| lid := mapping_layers c;
            kind := Conv2d (in_channels c) (model_channels c * m0) 3 init |}.
Proof.
  intros Hm. unfold enc_built, loop_enc, enumerate. rewrite Hm. simpl.
  unfold md_values. rewrite head_map.
  erewrite loop_levels_head; [reflexivity|].
  unfold loop_level. apply loop_blocks_head. reflexivity.
Qed.

(** The stages in the order they are built compose, whatever the
    configuration: this is the bookkeeping of [cout]. *)
Lemma enc_built_composes c : composes (md_values (e_tbl (enc_built c))) = true.
Proof.
  unfold enc_built, loop_enc.
  apply loop_levels_chained. split; [reflexivity|]. simpl. discriminate.
Qed.

Lemma encoder_stage_down_preserves l : encoder_stage l = true -> down_preserves l = true.
Proof.
  unfold encoder_stage, down_preserves. destruct (kind l); try discriminate; auto.
Qed.

(** C10, as stated, fails: with the default multipliers [1,2,3,4] and
    [img_resolution = 2] the resolutions are 2, 1, 0, 0, so the keys of the
    last level are those of the level before it and its stages replace
    them in place.  In the table as the encoder loop leaves it,
    "1x1_block2" puts out 384 channels and the stage after it, "0x0_down",
    was built to take 576. *)
Lemma encoder_table_mismatch :
  let tbl := enc_table (fst (GuidanceNet (LL := strict_sizes) (default_config 2 2 2))) in
  composes (md_values tbl) = false
  /\ md_keys tbl !! 7 = Some "1x1_block2"
  /\ md_keys tbl !! 8 = Some "0x0_down"
  /\ (layer_out_channels <$> md_values tbl !! 7) = Some (Some 384%Z)
  /\ (layer_in_channels <$> md_values tbl !! 8) = Some (Some 576%Z).
Proof. vm_compute. repeat split. Qed.

(** C10, amended.  For every configuration whose stage keys are pairwise
    distinct (no two levels share the resolution [img_resolution >> level]
    in a key) and whose mapping and encoder layers build, the table in
    [self.enc] lists the stages in the order they were built, every stage
    puts out as many channels as the next one was built to take, every
    downsampling block keeps the channel count, and the first stage is the
    convolution from [in_channels] to [model_channels * mult]. *)
Theorem encoder_table_composes `{LL : LayerLibrary} (c : Config) :
  NoDup (stage_keys c) ->
  layers_build c ->
  let tbl := enc_table (fst (GuidanceNet c)) in
  md_keys tbl = stage_keys c
  /\ composes (md_values tbl) = true
  /\ Forall (fun l => down_preserves l = true) (md_values tbl)
  /\ (forall m0 ms, channel_mult c = m0 :: ms ->
        head (md_values tbl)
        = Some {| lid := mapping_layers c;
                  kind := Conv2d (in_channels c) (model_channels c * m0) 3 init |}).
Proof.
  intros Hnd Hb tbl. subst tbl.
  rewrite (GuidanceNet_enc_table c Hb), (enc_final_built c Hnd).
  refine (conj _ (conj (enc_built_composes c) (conj _ (enc_built_head c)))).
  - unfold enc_built, loop_enc. rewrite loop_levels_keys. reflexivity.
  - eapply Forall_impl.
    + apply loop_enc_stages; [apply md_values_snoc_Forall|constructor].
    + intros l. apply encoder_stage_down_preserves.
Qed.

Lemma encoder_table_composes_witness :
  NoDup (stage_keys (default_config 16 2 2))
  /\ layers_build (LL := strict_sizes) (default_config 16 2 2)
  /\ composes (md_values (enc_table (fst (GuidanceNet (LL := strict_sizes)
                                            (default_config 16 2 2))))) = true.
Proof.
  assert (NoDup (stage_keys (default_config 16 2 2))) as Hnd.
  { apply (bool_decide_unpack _). vm_compute. exact I. }
  assert (layers_build (LL := strict_sizes) (default_config 16 2 2)) as Hb
    by (split; apply all_build_Forall; vm_compute; reflexivity).
  split; [exact Hnd|]. split; [exact Hb|].
  destruct (encoder_table_composes (LL := strict_sizes) (default_config 16 2 2) Hnd Hb)
    as (_ & H & _).
  exact H.
Defined.

(** ** The forward pass *)

Section ForwardFacts.
Context `{FW : Framework}.
Context `{LL : LayerLibrary}.

Lemma bind_ext {A B} (m : SE Rng A) (k1 k2 : A -> SE Rng B) :
  (forall a s, k1 a s = k2 a s) -> forall s, bind m k1 s = bind m k2 s.
Proof.
  intros Hk s. unfold bind. destruct (m s) as [s' [a|e]]; [apply Hk|reflexivity].
Qed.

Lemma rng_free_ret {A} (a : A) : rng_free (ret a).
Proof. intros g g'. reflexivity. Qed.

Lemma rng_free_raise {A} e : rng_free (@raise Rng A e).
Proof. intros g g'. reflexivity. Qed.

Lemma rng_free_lift {A} (r : result A) : rng_free (lift r).
Proof. intros g g'. reflexivity. Qed.

Lemma rng_free_bind {A B} (m : SE Rng A) (k : A -> SE Rng B) :
  rng_free m -> (forall a, rng_free (k a)) -> rng_free (bind m k).
Proof.
  intros Hm Hk g g'. unfold bind. specialize (Hm g g').
  destruct (m g) as [s r], (m g') as [s' r']. simpl in Hm. subst r'.
  destruct r as [a|e]; [apply Hk|reflexivity].
Qed.

(** Binding a value that is already known keeps what is known about it. *)
Lemma rng_free_bind_known {A B} (v : A) (k : A -> SE Rng B) :
  rng_free (k v) -> rng_free (bind (lift (Ok v)) k).
Proof. intros Hk g g'. apply Hk. Qed.

Lemma rng_free_foldM {A B} (f : A -> B -> SE Rng A) l :
  (forall a b, rng_free (f a b)) -> forall a, rng_free (foldM f a l).
Proof.
  intros Hf. induction l as [|b l IH]; intros a; simpl.
  - apply rng_free_ret.
  - apply rng_free_bind; [apply Hf|apply IH].
Qed.

Ltac rng_free_step :=
  first
    [ apply rng_free_ret
    | apply rng_free_raise
    | apply rng_free_lift
    | apply rng_free_bind_known
    | apply rng_free_bind; [|intro]
    | match goal with
      | |- rng_free (if ?b then _ else _) => destruct b
      | |- rng_free (match ?x with _ => _ end) => destruct x
      end ].

Lemma label_dropout_active_eval self :
  self !! "training" = Some (VBool false) -> label_dropout_active self = ret false.
Proof.
  intros Ht. unfold label_dropout_active, getattr_. rewrite Ht. reflexivity.
Qed.

Lemma label_step_None self x class_labels emb :
  self !! "map_label" = Some VNone -> label_step self x class_labels emb = ret emb.
Proof.
  intros Hl. unfold label_step, getattr_. rewrite Hl. reflexivity.
Qed.

Lemma augment_step_None self augment_labels emb :
  self !! "map_augment" = Some VNone -> augment_step self augment_labels emb = ret emb.
Proof.
  intros Ha. unfold augment_step, getattr_. rewrite Ha. reflexivity.
Qed.

(** Without the attribute, the step raises before it looks at the labels. *)
Lemma label_step_absent self x class_labels emb :
  self !! "map_label" = None ->
  label_step self x class_labels emb = raise (AttributeError "map_label").
Proof.
  intros Hl. unfold label_step, getattr_. rewrite Hl. reflexivity.
Qed.

Lemma augment_step_absent self augment_labels emb :
  self !! "map_augment" = None ->
  augment_step self augment_labels emb = raise (AttributeError "map_augment").
Proof.
  intros Ha. unfold augment_step, getattr_. rewrite Ha. reflexivity.
Qed.

Lemma forward_mapping_eval self x noise_labels class_labels augment_labels :
  self !! "training" = Some (VBool false) ->
  rng_free (forward_mapping self x noise_labels class_labels augment_labels).
Proof.
  intros Ht. unfold forward_mapping, augment_step, label_step.
  rewrite (label_dropout_active_eval self Ht).
  repeat rng_free_step.
Qed.

Lemma forward_encoder_eval `{!EvalMode FW} self x emb :
  rng_free (forward_encoder self x emb).
Proof.
  unfold forward_encoder.
  do 2 (apply rng_free_bind; [apply rng_free_lift|intro]).
  apply rng_free_bind; [|intro; apply rng_free_ret].
  apply rng_free_foldM. intros acc block. unfold enc_step.
  apply rng_free_bind; [|intro; apply rng_free_ret].
  destruct (isinstance_UNetBlock block); [apply block_eval|apply rng_free_lift].
Qed.

Lemma call_out_rng_free self key x : rng_free (call_out self key x).
Proof. unfold call_out. repeat rng_free_step. Qed.

Lemma forward_pooling_eval `{!EvalMode FW} self x :
  self !! "training" = Some (VBool false) ->
  rng_free (forward_pooling self x).
Proof.
  intros Ht. unfold forward_pooling.
  assert (getattr_ self "training" = Ok (VBool false)) as ->
    by (unfold getattr_; rewrite Ht; reflexivity).
  apply rng_free_bind; [apply call_out_rng_free|intro x1].
  apply rng_free_bind; [apply call_out_rng_free|intro x2].
  apply rng_free_bind; [apply rng_free_lift|intro p].
  apply rng_free_bind_known.
  apply rng_free_bind; [apply dropout_eval|intro x3].
  apply call_out_rng_free.
Qed.

(** C5.  In evaluation mode the result of a forward call does not depend on
    the state of the random generator: the label-dropout mask is not drawn,
    and the dropout of the pooling head is called with [training=False].
    Two calls with the same inputs on the same object give the same
    result. *)
Theorem eval_forward_deterministic `{!EvalMode FW} (self : Obj) (x noise_labels : Tensor)
    (class_labels augment_labels : option Tensor) :
  self !! "training" = Some (VBool false) ->
  forall g g',
    snd (forward self x noise_labels class_labels augment_labels g)
    = snd (forward self x noise_labels class_labels augment_labels g').
Proof.
  intros Ht. change (rng_free (forward self x noise_labels class_labels augment_labels)).
  unfold forward.
  apply rng_free_bind; [apply forward_mapping_eval, Ht|intro emb].
  apply rng_free_bind; [apply forward_encoder_eval|intro y].
  apply forward_pooling_eval, Ht.
Qed.

(** C6.  A construction with [label_dim = 0] assigns [None] to
    [self.map_label]; on any object that carries this value the forward
    pass skips the label path, so two calls that differ in the class labels
    only give the same result and leave the generator in the same state.
    (A construction cut short before the assignment leaves the attribute
    unset; a forward pass on an object without it raises before it looks at
    the labels.) *)
Theorem label_dim_zero_ignores_class_labels (c : Config) (self : Obj)
    (x noise_labels : Tensor) (labels1 labels2 augment_labels : option Tensor) (g : Rng) :
  label_dim c = 0%Z ->
  self !! "map_label" = attrs (fst (GuidanceNet c)) !! "map_label" ->
  forward self x noise_labels labels1 augment_labels g
  = forward self x noise_labels labels2 augment_labels g.
Proof.
  intros Hdim Hattr.
  assert (forall emb, label_step self x labels1 emb = label_step self x labels2 emb) as Hstep.
  { intros emb. pose proof (GuidanceNet_map_label_None c Hdim) as Hnone.
    unfold attr_sat in Hnone. rewrite <- Hattr in Hnone.
    destruct (self !! "map_label") as [v|] eqn:E.
    - subst v. rewrite !(label_step_None self x _ _ E). reflexivity.
    - rewrite !(label_step_absent self x _ _ E). reflexivity. }
  assert (forall s, forward_mapping self x noise_labels labels1 augment_labels s
                    = forward_mapping self x noise_labels labels2 augment_labels s) as Hmap.
  { intros s. unfold forward_mapping. repeat (apply bind_ext; intros).
    rewrite Hstep. reflexivity. }
  unfold forward, bind at 1 3. rewrite Hmap. reflexivity.
Qed.

(** C7.  A construction with [augment_dim = 0] assigns [None] to
    [self.map_augment]; on any object that carries this value the forward
    pass skips the augmentation branch, so two calls that differ in the
    augmentation labels only give the same result.  (A construction cut
    short before the assignment leaves the attribute unset; a forward pass
    on an object without it raises before it looks at the labels.) *)
Theorem augment_dim_zero_ignores_augment_labels (c : Config) (self : Obj)
    (x noise_labels : Tensor) (class_labels augment1 augment2 : option Tensor) (g : Rng) :
  augment_dim c = 0%Z ->
  self !! "map_augment" = attrs (fst (GuidanceNet c)) !! "map_augment" ->
  forward self x noise_labels class_labels augment1 g
  = forward self x noise_labels class_labels augment2 g.
Proof.
  intros Hdim Hattr.
  assert (forall emb, augment_step self augment1 emb = augment_step self augment2 emb) as Hstep.
  { intros emb. pose proof (GuidanceNet_map_augment_None c Hdim) as Hnone.
    unfold attr_sat in Hnone. rewrite <- Hattr in Hnone.
    destruct (self !! "map_augment") as [v|] eqn:E.
    - subst v. rewrite !(augment_step_None self _ _ E). reflexivity.
    - rewrite !(augment_step_absent self _ _ E). reflexivity. }
  assert (forall s, forward_mapping self x noise_labels class_labels augment1 s
                    = forward_mapping self x noise_labels class_labels augment2 s) as Hmap.
  { intros s. unfold forward_mapping. repeat (apply bind_ext; intros).
    rewrite Hstep. reflexivity. }
  unfold forward, bind at 1 3. rewrite Hmap. reflexivity.
Qed.




(** C9, amended.  The signature of [forward] gives [class_labels] no
    default: a call with the image batch and the noise levels only is
    turned down with a TypeError before the body runs.  With the class
    labels supplied ([None] is accepted as a value) the augmentation labels
    may be left out and are [None]. *)
Theorem forward_call_binding (self : Obj) (x noise_labels : Tensor) (g : Rng) :
  forward_call self x noise_labels [] g
  = (g, Raise (TypeError "forward() missing 1 required positional argument: 'class_labels'"))
  /\ (forall class_labels,
        forward_call self x noise_labels [class_labels] g
        = forward self x noise_labels class_labels None g)
  /\ (forall class_labels augment_labels,
        forward_call self x noise_labels [class_labels; augment_labels] g
        = forward self x noise_labels class_labels augment_labels g).
Proof. repeat split. Qed.

End ForwardFacts.

(** ** The executable framework meets the assumptions *)

Module IntKernelsFacts.
Import IntKernels.

#[global] Instance eval_mode : EvalMode framework.
Proof.
  split.
  - intros l x emb g g'. cbn. unfold call_block.
    destruct (kind l); try reflexivity.
    destruct (Nat.eqb (length x) (length emb)); reflexivity.
  - intros x p g g'. reflexivity.
Qed.

#[global] Instance uniform_rand : UniformRand framework.
Proof.
  split.
  - intros n g. cbn. rewrite length_map, length_seq. reflexivity.
  - intros n g u. cbn. intros Hu. apply in_map_iff in Hu as (i & <- & _).
    pose proof (Nat.mod_upper_bound (g + i) 4 ltac:(lia)) as Hlt.
    unfold Qle, Qlt. cbn. split; lia.
Qed.

Lemma sumZ_zero r : Forall (fun v => v = 0%Z) r -> sumZ r = 0%Z.
Proof. induction 1 as [|v r -> _ IH]; simpl; [reflexivity|]. rewrite IH. reflexivity. Qed.

Lemma fill_zero n : Forall (fun v => v = 0%Z) (fill n 0).
Proof. unfold fill. induction (Z.to_nat n); simpl; constructor; auto. Qed.

Lemma mask_rows_zero t n z :
  mask_rows t (repeat false n) = Some z -> is_zero z.
Proof.
  revert n z. induction t as [|r t IH]; intros [|n] z; simpl; try discriminate.
  - intros [= <-]. constructor.
  - destruct (mask_rows t (repeat false n)) as [t'|] eqn:E; [|discriminate].
    intros [= <-]. constructor; [|exact (IH n t' E)].
    induction r; simpl; constructor; auto.
Qed.

Lemma add_row_zero e z r :
  Forall (fun v => v = 0%Z) z -> add_row e z = Some r -> r = e.
Proof.
  revert z r. induction e as [|a e IH]; intros [|b z] r Hz; simpl; try discriminate.
  - intros [= <-]. reflexivity.
  - inversion Hz as [|? ? -> Hz']; subst.
    destruct (add_row e z) as [r'|] eqn:E; [|discriminate].
    intros [= <-]. rewrite (IH z r' Hz' E). f_equal. lia.
Qed.

Lemma add_rows_zero e z r :
  is_zero z -> add_rows e z = Some r -> r = e.
Proof.
  revert z r. induction e as [|a e IH]; intros [|b z] r Hz; simpl; try discriminate.
  - intros [= <-]. reflexivity.
  - inversion Hz as [|? ? Hb Hz']; subst.
    destruct (add_row a b) as [ab|] eqn:Eab; [|discriminate].
    destruct (add_rows e z) as [r'|] eqn:E; [|discriminate].
    intros [= <-]. rewrite (IH z r' Hz' E), (add_row_zero a b ab Hb Eab). reflexivity.
Qed.

#[global] Instance zero_algebra : ZeroAlgebra framework.
Proof.
  refine (Build_ZeroAlgebra framework IntKernels.is_zero _ _ _).
  - intros t n z. cbn. unfold tensor_mul_mask.
    destruct (mask_rows t (repeat false n)) as [t'|] eqn:E; [|discriminate].
    intros [= <-]. exact (mask_rows_zero t n t' E).
  - intros l i o ini z r Hk Hz. cbn. unfold call_layer, affine. rewrite Hk.
    destruct (has_width i z); [|discriminate].
    intros [= <-]. unfold is_zero in *.
    induction Hz as [|row z Hrow _ IH]; simpl; constructor; [|exact IH].
    rewrite (sumZ_zero row Hrow). apply fill_zero.
  - intros e z r Hz. cbn. unfold tensor_add.
    destruct (add_rows e z) as [t|] eqn:E; [|discriminate].
    intros [= <-]. exact (add_rows_zero e z t Hz E).
Defined.

End IntKernelsFacts.

(** ** The forward claims on concrete inputs *)

Lemma eval_forward_deterministic_witness :
  IntKernels.completed (IntKernels.small_config 3 2 (1 # 2)) false !! "training"
  = Some (VBool false)
  /\ snd (forward (FW := IntKernels.framework) (IntKernels.completed (IntKernels.small_config 3 2 (1 # 2)) false)
            IntKernels.images IntKernels.noise
            (Some IntKernels.labels_a) (Some IntKernels.augment_a) 7)
     = snd (forward (FW := IntKernels.framework) (IntKernels.completed (IntKernels.small_config 3 2 (1 # 2)) false)
              IntKernels.images IntKernels.noise
              (Some IntKernels.labels_a) (Some IntKernels.augment_a) 8).
Proof.
  assert (IntKernels.completed (IntKernels.small_config 3 2 (1 # 2)) false !! "training"
          = Some (VBool false)) as Ht by (vm_compute; reflexivity).
  split; [exact Ht|].
  exact (eval_forward_deterministic (FW := IntKernels.framework) _ IntKernels.images IntKernels.noise
           (Some IntKernels.labels_a) (Some IntKernels.augment_a) Ht 7 8).
Defined.

Lemma label_dim_zero_ignores_class_labels_witness :
  label_dim (IntKernels.small_config 0 2 0) = 0%Z
  /\ IntKernels.completed (IntKernels.small_config 0 2 0) true !! "map_label"
     = attrs (fst (GuidanceNet (LL := strict_sizes) (IntKernels.small_config 0 2 0))) !! "map_label"
  /\ forward (FW := IntKernels.framework) (IntKernels.completed (IntKernels.small_config 0 2 0) true)
       IntKernels.images IntKernels.noise (Some IntKernels.labels_a)
       (Some IntKernels.augment_a) 7
     = forward (FW := IntKernels.framework) (IntKernels.completed (IntKernels.small_config 0 2 0) true)
         IntKernels.images IntKernels.noise (Some IntKernels.labels_b)
         (Some IntKernels.augment_a) 7.
Proof.
  assert (IntKernels.completed (IntKernels.small_config 0 2 0) true !! "map_label"
          = attrs (fst (GuidanceNet (LL := strict_sizes) (IntKernels.small_config 0 2 0))) !! "map_label")
    as Hattr by (vm_compute; reflexivity).
  split; [reflexivity|]. split; [exact Hattr|].
  exact (label_dim_zero_ignores_class_labels (FW := IntKernels.framework) (LL := strict_sizes)
           (IntKernels.small_config 0 2 0) _
           IntKernels.images IntKernels.noise (Some IntKernels.labels_a)
           (Some IntKernels.labels_b) (Some IntKernels.augment_a) 7 eq_refl Hattr).
Defined.

Lemma augment_dim_zero_ignores_augment_labels_witness :
  augment_dim (IntKernels.small_config 3 0 0) = 0%Z
  /\ IntKernels.completed (IntKernels.small_config 3 0 0) false !! "map_augment"
     = attrs (fst (GuidanceNet (LL := strict_sizes) (IntKernels.small_config 3 0 0))) !! "map_augment"
  /\ forward (FW := IntKernels.framework) (IntKernels.completed (IntKernels.small_config 3 0 0) false)
       IntKernels.images IntKernels.noise (Some IntKernels.labels_a)
       (Some IntKernels.augment_a) 7
     = forward (FW := IntKernels.framework) (IntKernels.completed (IntKernels.small_config 3 0 0) false)
         IntKernels.images IntKernels.noise (Some IntKernels.labels_a) None 7.
Proof.
  assert (IntKernels.completed (IntKernels.small_config 3 0 0) false !! "map_augment"
          = attrs (fst (GuidanceNet (LL := strict_sizes) (IntKernels.small_config 3 0 0))) !! "map_augment")
    as Hattr by (vm_compute; reflexivity).
  split; [reflexivity|]. split; [exact Hattr|].
  exact (augment_dim_zero_ignores_augment_labels (FW := IntKernels.framework) (LL := strict_sizes)
           (IntKernels.small_config 3 0 0) _
           IntKernels.images IntKernels.noise (Some IntKernels.labels_a)
           (Some IntKernels.augment_a) None 7 eq_refl Hattr).
Defined.


(** The label step of that call does complete, with the embedding it was
    given, after two draws. *)
Example full_label_dropout_runs :
  label_step (FW := IntKernels.framework) (IntKernels.completed (IntKernels.small_config 3 0 1) true)
    IntKernels.images (Some IntKernels.labels_a) IntKernels.embedding 7
  = (9, Ok IntKernels.embedding).
Proof. vm_compute. reflexivity. Qed.

(** C9, as stated, fails: on an unconditional object whose forward pass
    runs to completion when [None] is passed for the class labels, the call
    with the image batch and the noise levels only raises TypeError. *)
Lemma forward_without_class_labels_raises :
  attrs (fst (GuidanceNet (LL := strict_sizes) (IntKernels.small_config 0 0 0))) !! "map_label" = Some VNone
  /\ (exists out,
        snd (forward_call (FW := IntKernels.framework) (IntKernels.completed (IntKernels.small_config 0 0 0) false)
               IntKernels.images IntKernels.noise [None] 7) = Ok out)
  /\ snd (forward_call (FW := IntKernels.framework) (IntKernels.completed (IntKernels.small_config 0 0 0) false)
            IntKernels.images IntKernels.noise [] 7)
     = Raise (TypeError "forward() missing 1 required positional argument: 'class_labels'").
Proof.
  split; [vm_compute; reflexivity|]. split; [|reflexivity].
  eexists. vm_compute. reflexivity.
Qed.

(** The forward pass reads [self.dropout] (line 237), which the constructor
    never assigns either: without the attribute supplied by hand, a call
    that gets through the encoder and the first two steps of the pooling
    head raises AttributeError. *)
Example forward_reads_unassigned_dropout :
  attrs (fst (GuidanceNet (LL := strict_sizes) (IntKernels.small_config 0 0 0))) !! "dropout" = None
  /\ snd (forward (FW := IntKernels.framework)
            (delete "dropout" (IntKernels.completed (IntKernels.small_config 0 0 0) false))
            IntKernels.images IntKernels.noise None None 7)
     = Raise (AttributeError "dropout").
Proof. split; vm_compute; reflexivity. Qed.

(** * Further properties of the constructor and of the forward pass *)

(** ** More on module dictionaries and on the loop *)

Lemma loop_enc_table_bounded c n0 :
  table_bounded n0 (loop_enc md_set c {| e_tbl := []; e_cout := in_channels c; e_n := n0 |}).
Proof.
  unfold loop_enc. apply loop_levels_inv; [| |unfold table_bounded; simpl; lia].
  - intros st lm Hst. unfold table_bounded, loop_head in *.
    destruct (Nat.eqb (fst lm) 0); simpl;
      match goal with |- context [md_set ?k ?v ?d] => pose proof (md_set_length_le k v d) end;
      lia.
  - intros st res mult idx Hst. unfold table_bounded, loop_block in *. simpl.
    match goal with |- context [md_set ?k ?v ?d] => pose proof (md_set_length_le k v d) end.
    lia.
Qed.

Lemma stage_keys_length c : length (stage_keys c) = encoder_layers c.
Proof.
  unfold stage_keys, encoder_layers.
  replace (length (channel_mult c)) with (length (enumerate (channel_mult c))).
  2:{ unfold enumerate. rewrite length_combine, length_seq. lia. }
  induction (enumerate (channel_mult c)) as [|lm lms IH]; [reflexivity|].
  cbn [flat_map length]. rewrite length_app, IH. unfold level_keys.
  cbn [length]. rewrite length_map. unfold range. rewrite length_seq. lia.
Qed.

(** X1.  A construction whose mapping and encoder layers build has built
    3 mapping layers, one more for each of the two optional projections,
    and one stage per level plus [num_blocks] blocks per level (none for a
    negative [num_blocks]) when it raises; [self.enc] never holds more
    entries than stages were built, and there are as many stage keys as
    stages. *)
Theorem construction_layer_count `{LL : LayerLibrary} (c : Config) :
  layers_build c ->
  nbuilt (fst (GuidanceNet c)) = mapping_layers c + encoder_layers c
  /\ length (enc_table (fst (GuidanceNet c))) <= encoder_layers c
  /\ length (stage_keys c) = encoder_layers c.
Proof.
  intros Hb.
  refine (conj (GuidanceNet_nbuilt c Hb) (conj _ (stage_keys_length c))).
  rewrite (GuidanceNet_enc_table c Hb). unfold enc_final.
  pose proof (loop_enc_table_bounded c (mapping_layers c)) as Hbd.
  pose proof (loop_enc_count c md_set
                {| e_tbl := []; e_cout := in_channels c; e_n := mapping_layers c |}) as Hn.
  unfold table_bounded in Hbd. cbn [e_n] in Hn. lia.
Qed.

Lemma construction_layer_count_witness :
  layers_build (LL := strict_sizes) (IntKernels.small_config 3 2 0)
  /\ nbuilt (fst (GuidanceNet (LL := strict_sizes) (IntKernels.small_config 3 2 0))) = 9
  /\ length (enc_table (fst (GuidanceNet (LL := strict_sizes)
                               (IntKernels.small_config 3 2 0)))) <= 4.
Proof.
  assert (layers_build (LL := strict_sizes) (IntKernels.small_config 3 2 0)) as Hb
    by (split; apply all_build_Forall; vm_compute; reflexivity).
  destruct (construction_layer_count (LL := strict_sizes) (IntKernels.small_config 3 2 0) Hb)
    as (H1 & H2 & _).
  split; [exact Hb|]. split; [exact H1|exact H2].
Defined.

(** X2.  Every entry of [self.enc] is what its key says: the convolution
    key holds the level-0 convolution with kernel 3, a downsampling key
    holds a downsampling block with equal channel counts and no attention,
    a block key holds a block with [model_channels * mult] output channels
    whose attention flag is exactly "the level's resolution is in
    [attn_resolutions]"; all blocks carry [block_kwargs].  This holds for
    every configuration and every layer library, also when keys collide
    and also of a table left by a construction that a layer cut short. *)
Theorem encoder_entries_match_keys `{LL : LayerLibrary} (c : Config) :
  Forall (entry_matches c) (enc_table (fst (GuidanceNet c))).
Proof.
  pose proof (GuidanceNet_enc_entries c) as H. unfold attr_sat in H. unfold enc_table.
  destruct (attrs (fst (GuidanceNet c)) !! "enc") as [v|]; [|constructor].
  destruct H as (d & -> & Hd). exact Hd.
Qed.

(** ** The width handed to the pooling head *)

Lemma last_enumerate_snd {A} (l : list A) : snd <$> last (enumerate l) = last l.
Proof.
  unfold enumerate. generalize 0.
  induction l as [|a l IH]; intros k; [reflexivity|].
  destruct l as [|b l]; [reflexivity|].
  specialize (IH (S k)). cbn [length seq combine] in *. exact IH.
Qed.

Lemma loop_blocks_cout c ins res mult idxs st :
  idxs <> [] ->
  e_cout (fold_left (loop_block ins c res mult) idxs st) = (model_channels c * mult)%Z.
Proof.
  revert st. induction idxs as [|idx idxs IH]; intros st Hne; [contradiction|].
  destruct idxs as [|idx' idxs]; [reflexivity|].
  cbn [fold_left] in *. apply IH. discriminate.
Qed.

Lemma loop_levels_cout c ins lms st lm :
  (0 < num_blocks c)%Z ->
  last lms = Some lm ->
  e_cout (fold_left (loop_level ins c) lms st) = (model_channels c * snd lm)%Z.
Proof.
  intros Hnb. revert st. induction lms as [|lm0 lms IH]; intros st Hlast; [discriminate|].
  destruct lms as [|lm1 lms].
  - injection Hlast as ->. cbn [fold_left]. unfold loop_level.
    apply loop_blocks_cout. unfold range.
    destruct (Z.to_nat (num_blocks c)) eqn:E; [lia|discriminate].
  - cbn [fold_left] in *. apply IH. exact Hlast.
Qed.

(** X3.  With at least one block per level, pairwise distinct stage keys
    and mapping and encoder layers that build, the last stage of
    [self.enc] puts out [model_channels] times the last multiplier: this
    is the channel count the pooling head receives. *)
Theorem last_stage_width `{LL : LayerLibrary} (c : Config) (m : Z) :
  last (channel_mult c) = Some m ->
  (0 < num_blocks c)%Z ->
  NoDup (stage_keys c) ->
  layers_build c ->
  exists l,
    last (md_values (enc_table (fst (GuidanceNet c)))) = Some l
    /\ layer_out_channels l = Some (model_channels c * m)%Z.
Proof.
  intros Hm Hnb Hnd Hb.
  rewrite (GuidanceNet_enc_table c Hb), (enc_final_built c Hnd).
  assert (exists lm, last (enumerate (channel_mult c)) = Some lm /\ snd lm = m) as (lm & Hlm & <-).
  { pose proof (last_enumerate_snd (channel_mult c)) as E. rewrite Hm in E.
    destruct (last (enumerate (channel_mult c))) as [lm|]; [|discriminate].
    injection E as E. eauto. }
  pose proof (loop_levels_cout c md_snoc (enumerate (channel_mult c))
                {| e_tbl := []; e_cout := in_channels c; e_n := mapping_layers c |}
                lm Hnb Hlm) as Hcout.
  fold (loop_enc md_snoc c {| e_tbl := []; e_cout := in_channels c; e_n := mapping_layers c |})
    in Hcout. fold (enc_built c) in Hcout.
  assert (chained (enc_built c)) as [_ Hlast].
  { unfold enc_built, loop_enc. apply loop_levels_chained.
    split; [reflexivity|]. simpl. discriminate. }
  destruct (last (md_values (e_tbl (enc_built c)))) as [l|] eqn:El.
  - exists l. split; [reflexivity|]. rewrite <- Hcout. apply Hlast. reflexivity.
  - exfalso. apply last_None in El.
    pose proof (loop_enc_table_counts c (mapping_layers c)) as Hc.
    pose proof (loop_enc_count c md_snoc
                  {| e_tbl := []; e_cout := in_channels c; e_n := mapping_layers c |}) as Hn.
    fold (enc_built c) in Hc, Hn. unfold table_counts in Hc. cbn [e_n] in Hn.
    unfold md_values in El. apply fmap_nil_inv in El. rewrite El in Hc. cbn [length] in Hc.
    assert (encoder_layers c = 0) as Hz by lia.
    unfold encoder_layers in Hz.
    destruct (channel_mult c); [discriminate Hm|]. simpl in Hz. lia.
Qed.

Lemma last_stage_width_witness :
  last (channel_mult (default_config 16 2 2)) = Some 4%Z
  /\ (0 < num_blocks (default_config 16 2 2))%Z
  /\ NoDup (stage_keys (default_config 16 2 2))
  /\ layers_build (LL := strict_sizes) (default_config 16 2 2)
  /\ exists l,
       last (md_values (enc_table (fst (GuidanceNet (LL := strict_sizes)
                                         (default_config 16 2 2))))) = Some l
       /\ layer_out_channels l = Some (model_channels (default_config 16 2 2) * 4)%Z.
Proof.
  assert (NoDup (stage_keys (default_config 16 2 2))) as Hnd.
  { apply (bool_decide_unpack _). vm_compute. exact I. }
  assert (0 < num_blocks (default_config 16 2 2))%Z as Hnb by reflexivity.
  assert (layers_build (LL := strict_sizes) (default_config 16 2 2)) as Hb
    by (split; apply all_build_Forall; vm_compute; reflexivity).
  split; [reflexivity|]. split; [exact Hnb|]. split; [exact Hnd|]. split; [exact Hb|].
  exact (last_stage_width (LL := strict_sizes) (default_config 16 2 2) 4 eq_refl Hnb Hnd Hb).
Defined.

(** ** The mapping stack *)

(** X4.  The mapping layers a construction leaves when they all build,
    whatever happens in the sections after, fit together: the noise
    embedding and the augmentation projection both put out
    [model_channels] features (they are added), the first linear layer
    takes [model_channels] to [model_channels * channel_mult_emb], the
    second keeps that width and the label projection puts it out too; the
    two projections have no bias and exist exactly when their input
    dimension is not 0. *)
Theorem mapping_stack_widths `{LL : LayerLibrary} (c : Config) :
  mapping_builds c ->
  let self := attrs (fst (GuidanceNet c)) in
  let emb_channels := (model_channels c * channel_mult_emb c)%Z in
  value_kind <$> self !! "map_noise" = Some (Some (PositionalEmbedding (model_channels c)))
  /\ value_kind <$> self !! "map_augment"
     = Some (if Z.eqb (augment_dim c) 0 then None
             else Some (Linear (augment_dim c) (model_channels c) false init_zero))
  /\ value_kind <$> self !! "map_layer0"
     = Some (Some (Linear (model_channels c) emb_channels true init))
  /\ value_kind <$> self !! "map_layer1"
     = Some (Some (Linear emb_channels emb_channels true init))
  /\ value_kind <$> self !! "map_label"
     = Some (if Z.eqb (label_dim c) 0 then None
             else Some (Linear (label_dim c) emb_channels false (init_label (label_dim c)))).
Proof.
  intros Hmap self emb_channels. subst self emb_channels.
  rewrite (GuidanceNet_map_label c Hmap), (GuidanceNet_map_augment c Hmap).
  rewrite !(GuidanceNet_mapping_attr c _ Hmap) by discriminate.
  unfold mapping_attrs.
  refine (conj _ (conj _ (conj _ (conj _ _)))).
  - do 4 (rewrite lookup_insert_ne by discriminate). rewrite lookup_insert_eq. reflexivity.
  - destruct (Z.eqb (augment_dim c) 0); reflexivity.
  - do 2 (rewrite lookup_insert_ne by discriminate). rewrite lookup_insert_eq. reflexivity.
  - do 1 (rewrite lookup_insert_ne by discriminate). rewrite lookup_insert_eq. reflexivity.
  - destruct (Z.eqb (label_dim c) 0); reflexivity.
Qed.

Lemma mapping_stack_widths_witness :
  mapping_builds (LL := strict_sizes) (IntKernels.small_config 3 2 0)
  /\ value_kind <$> attrs (fst (GuidanceNet (LL := strict_sizes)
                                  (IntKernels.small_config 3 2 0))) !! "map_label"
     = Some (Some (Linear 3 4 false (init_label 3))).
Proof.
  assert (mapping_builds (LL := strict_sizes) (IntKernels.small_config 3 2 0)) as Hmap
    by (apply all_build_Forall; vm_compute; reflexivity).
  split; [exact Hmap|].
  destruct (mapping_stack_widths (LL := strict_sizes) (IntKernels.small_config 3 2 0) Hmap)
    as (_ & _ & _ & _ & H).
  exact H.
Defined.

(** A mapping layer that does not build ends the construction there: with
    [label_dim = -1] the label projection is refused and [map_label] is
    never assigned, the four layers before it are. *)
Example negative_label_dim :
  snd (GuidanceNet (LL := strict_sizes) (IntKernels.small_config (-1) 2 0))
  = Raise (RuntimeError "negative dimensions are not allowed")
  /\ nbuilt (fst (GuidanceNet (LL := strict_sizes) (IntKernels.small_config (-1) 2 0))) = 4
  /\ attrs (fst (GuidanceNet (LL := strict_sizes) (IntKernels.small_config (-1) 2 0)))
       !! "map_label" = None.
Proof. vm_compute. repeat split. Qed.

(** ** Configurations at the edges *)

(** X5.  As long as the resolution is still positive at every level but
    the last, halving never repeats a resolution: all stage keys are
    distinct, and in a construction whose mapping and encoder layers build
    no stage replaces another and [self.enc] holds exactly one entry per
    stage built. *)
Theorem positive_resolutions_keep_every_stage `{LL : LayerLibrary} (c : Config) :
  (forall l, S l < length (channel_mult c) -> (0 < img_resolution c ≫ Z.of_nat l)%Z) ->
  layers_build c ->
  NoDup (stage_keys c)
  /\ md_keys (enc_table (fst (GuidanceNet c))) = stage_keys c
  /\ length (enc_table (fst (GuidanceNet c))) = encoder_layers c.
Proof.
  intros Hpos Hb.
  assert (NoDup (stage_keys c)) as Hnd
    by apply distinct_resolutions_distinct_keys, positive_resolutions_distinct, Hpos.
  assert (md_keys (enc_table (fst (GuidanceNet c))) = stage_keys c) as Hkeys.
  { rewrite (GuidanceNet_enc_table c Hb), (enc_final_built c Hnd).
    unfold enc_built, loop_enc. rewrite loop_levels_keys. reflexivity. }
  refine (conj Hnd (conj Hkeys _)).
  rewrite <- stage_keys_length, <- Hkeys. unfold md_keys. rewrite length_map. reflexivity.
Qed.

Lemma positive_resolutions_keep_every_stage_witness :
  (forall l, S l < length (channel_mult (default_config 16 2 2)) ->
     (0 < img_resolution (default_config 16 2 2) ≫ Z.of_nat l)%Z)
  /\ layers_build (LL := strict_sizes) (default_config 16 2 2)
  /\ length (enc_table (fst (GuidanceNet (LL := strict_sizes) (default_config 16 2 2)))) = 16.
Proof.
  assert (layers_build (LL := strict_sizes) (default_config 16 2 2)) as Hb
    by (split; apply all_build_Forall; vm_compute; reflexivity).
  assert (forall l, S l < length (channel_mult (default_config 16 2 2)) ->
            (0 < img_resolution (default_config 16 2 2) ≫ Z.of_nat l)%Z) as Hpos.
  { intros l Hl. cbn in Hl.
    assert (l = 0 \/ l = 1 \/ l = 2) as [-> | [-> | ->]] by lia; reflexivity. }
  split; [exact Hpos|]. split; [exact Hb|].
  destruct (positive_resolutions_keep_every_stage (LL := strict_sizes)
              (default_config 16 2 2) Hpos Hb) as (_ & _ & H).
  exact H.
Defined.

(** ** More on the forward pass *)

Section ForwardMore.
Context `{FW : Framework}.
Context `{LL : LayerLibrary}.

Lemma bind_not_ok {A B} (m : SE Rng A) (k : A -> SE Rng B) :
  (forall a s b, snd (k a s) <> Ok b) -> forall s b, snd (bind m k s) <> Ok b.
Proof.
  intros Hk s b. unfold bind. destruct (m s) as [s' [a|e]]; [apply Hk|discriminate].
Qed.


Lemma bind_cong {A B} (m m' : SE Rng A) (k k' : A -> SE Rng B) :
  (forall s, m s = m' s) -> (forall a s, k a s = k' a s) ->
  forall s, bind m k s = bind m' k' s.
Proof.
  intros Hm Hk s. unfold bind. rewrite Hm.
  destruct (m' s) as [s' [a|e]]; [apply Hk|reflexivity].
Qed.

Lemma getattr_insert_ne (self : Obj) a b v :
  a <> b -> getattr_ (<[a := v]> self) b = getattr_ self b.
Proof. intros Hne. unfold getattr_. rewrite lookup_insert_ne by exact Hne. reflexivity. Qed.

Lemma rng_kept_ret {A} (a : A) : rng_kept (ret a).
Proof. intros g. reflexivity. Qed.

Lemma rng_kept_lift {A} (r : result A) : rng_kept (lift r).
Proof. intros g. reflexivity. Qed.

Lemma rng_kept_bind {A B} (m : SE Rng A) (k : A -> SE Rng B) :
  rng_kept m -> (forall a, rng_kept (k a)) -> rng_kept (bind m k).
Proof.
  intros Hm Hk g. unfold bind. specialize (Hm g).
  destruct (m g) as [s [a|e]]; simpl in Hm; subst s; [apply Hk|reflexivity].
Qed.

Lemma rng_kept_bind_ret {A B} (v : A) (k : A -> SE Rng B) :
  rng_kept (k v) -> rng_kept (bind (ret v) k).
Proof. intros Hk g. apply Hk. Qed.

Ltac rng_kept_step :=
  first
    [ apply rng_kept_ret
    | apply rng_kept_lift
    | apply rng_kept_bind; [|intro]
    | match goal with
      | |- rng_kept (if ?b then _ else _) => destruct b
      | |- rng_kept (match ?x with _ => _ end) => destruct x
      end ].

(** X6.  The forward pass reads [self.dropout] before the last projection
    (line 237): on an object without that attribute no call returns a
    tensor, whatever the inputs, the mode and the framework. *)
Theorem forward_needs_dropout_attribute (self : Obj) (x noise_labels : Tensor)
    (class_labels augment_labels : option Tensor) (g : Rng) (out : Tensor) :
  self !! "dropout" = None ->
  snd (forward self x noise_labels class_labels augment_labels g) <> Ok out.
Proof.
  intros Hd. unfold forward.
  apply bind_not_ok. intros emb s1 b1.
  apply bind_not_ok. intros y s2 b2.
  unfold forward_pooling.
  apply bind_not_ok. intros y1 s3 b3.
  apply bind_not_ok. intros y2 s4 b4.
  unfold bind, lift, getattr_. rewrite Hd. discriminate.
Qed.

(** X7.  The object left behind by a construction whose mapping and
    encoder layers build has no pooling head to run: whatever the encoder
    hands over, the pooling section raises at its first statement, KeyError
    for "linear_in" when the pool is "spatial" ([self.out] is empty) and
    AttributeError for "out" otherwise; no forward call on that object
    returns a tensor. *)
Theorem constructed_object_has_no_pooling_head (c : Config) (x noise_labels y : Tensor)
    (class_labels augment_labels : option Tensor) (g : Rng) (out : Tensor) :
  layers_build c ->
  forward_pooling (attrs (fst (GuidanceNet c))) y g
  = (g, Raise (if String.eqb (pool c) "spatial" then KeyError "linear_in"
               else AttributeError "out"))
  /\ snd (forward (attrs (fst (GuidanceNet c))) x noise_labels class_labels augment_labels g)
     <> Ok out.
Proof.
  intros Hb.
  assert (forall y g,
            forward_pooling (attrs (fst (GuidanceNet c))) y g
            = (g, Raise (if String.eqb (pool c) "spatial" then KeyError "linear_in"
                         else AttributeError "out"))) as Hpool.
  { intros y' g'. unfold forward_pooling, call_out, bind, lift, getattr_.
    rewrite (GuidanceNet_run c Hb).
    destruct (String.eqb (pool c) "spatial"); cbn [fst attrs].
    - rewrite lookup_insert_eq. reflexivity.
    - rewrite at_pooling_lookup; [|not_among]. rewrite lookup_empty. reflexivity. }
  split; [apply Hpool|].
  unfold forward.
  apply bind_not_ok. intros emb s1 b1.
  apply bind_not_ok. intros y' s2 b2.
  rewrite Hpool. discriminate.
Qed.

(** With [None] for the augmentation labels the augmentation branch is not
    taken, whatever [self.map_augment] holds. *)
Lemma augment_step_no_labels self emb v :
  self !! "map_augment" = Some v -> augment_step self None emb = ret emb.
Proof.
  intros Ha. unfold augment_step, getattr_. rewrite Ha.
  unfold bind, lift. cbn. rewrite andb_false_r. reflexivity.
Qed.

(** X8.  A call that leaves the augmentation labels out ([None], the
    default) gives what the same object gives with its augmentation
    projection removed: the projection is only used when labels are
    supplied. *)
Theorem no_augment_labels_skips_projection (self : Obj) (v : Value)
    (x noise_labels : Tensor) (class_labels : option Tensor) (g : Rng) :
  self !! "map_augment" = Some v ->
  forward self x noise_labels class_labels None g
  = forward (<["map_augment" := VNone]> self) x noise_labels class_labels None g.
Proof.
  intros Ha. unfold forward.
  apply bind_cong; [|intros emb s; apply bind_cong].
  - intros s.
    unfold forward_mapping, label_step, label_dropout_active, label_dropout_step.
    rewrite !getattr_insert_ne by discriminate.
    do 2 (apply bind_ext; intros).
    rewrite (augment_step_no_labels self _ v Ha).
    rewrite (augment_step_no_labels (<["map_augment" := VNone]> self) _ VNone)
      by apply lookup_insert_eq.
    reflexivity.
  - intros s'. unfold forward_encoder.
    rewrite !getattr_insert_ne by discriminate. reflexivity.
  - intros y s'. unfold forward_pooling, call_out.
    rewrite !getattr_insert_ne by discriminate. reflexivity.
Qed.

Lemma label_dropout_inactive self p :
  self !! "training" = Some (VBool true) ->
  self !! "label_dropout" = Some (VFloat p) ->
  (p == 0)%Q ->
  label_dropout_active self = ret false.
Proof.
  intros Ht Hd Hp. unfold label_dropout_active, getattr_. rewrite Ht, Hd.
  unfold bind, lift, ret. cbn [truthy].
  assert (Qeq_bool p 0 = true) as -> by (apply Qeq_bool_iff; exact Hp).
  reflexivity.
Qed.

(** X9.  [label_dropout = 0.0] (the default) switches label dropout off in
    training mode as well: the mapping section computes what it computes in
    evaluation mode and draws nothing from the random generator. *)
Theorem zero_label_dropout_is_evaluation (self : Obj) (p : Q) (x noise_labels : Tensor)
    (class_labels augment_labels : option Tensor) (g : Rng) :
  self !! "training" = Some (VBool true) ->
  self !! "label_dropout" = Some (VFloat p) ->
  (p == 0)%Q ->
  forward_mapping self x noise_labels class_labels augment_labels g
  = forward_mapping (<["training" := VBool false]> self) x noise_labels class_labels
      augment_labels g
  /\ fst (forward_mapping self x noise_labels class_labels augment_labels g) = g.
Proof.
  intros Ht Hd Hp. split.
  - unfold forward_mapping, label_step, augment_step.
    rewrite (label_dropout_inactive self p Ht Hd Hp).
    rewrite (label_dropout_active_eval (<["training" := VBool false]> self))
      by apply lookup_insert_eq.
    rewrite !getattr_insert_ne by discriminate. reflexivity.
  - generalize g.
    change (rng_kept (forward_mapping self x noise_labels class_labels augment_labels)).
    unfold forward_mapping, label_step, augment_step.
    rewrite (label_dropout_inactive self p Ht Hd Hp).
    repeat first [apply rng_kept_bind_ret | rng_kept_step].
Qed.

(** X10.  A conditional model called with [None] for the class labels
    while label dropout is active raises AttributeError: the mask is drawn
    first (the generator advances), then [tmp.dtype] is read on [None]. *)
Theorem none_labels_under_label_dropout (self : Obj) (ml : Layer) (p : Q)
    (x emb : Tensor) (g : Rng) :
  self !! "map_label" = Some (VLayer ml) ->
  self !! "training" = Some (VBool true) ->
  self !! "label_dropout" = Some (VFloat p) ->
  ~ (p == 0)%Q ->
  label_step self x None emb g
  = (fst (torch_rand (batch_size x) g), Raise (AttributeError "dtype")).
Proof.
  intros Hl Ht Hd Hp.
  unfold label_step, label_dropout_active, label_dropout_step, getattr_, rand.
  rewrite Hl, Ht, Hd. unfold bind, lift, ret, raise. cbn [is_not_None truthy as_number].
  assert (Qeq_bool p 0 = false) as ->.
  { destruct (Qeq_bool p 0) eqn:E; [|reflexivity].
    exfalso. apply Hp, Qeq_bool_iff, E. }
  reflexivity.
Qed.

(** X11.  The encoder loop records one skip per stage, and the feature map
    it hands on is the last skip recorded. *)
Theorem encoder_loop_records_skips (emb : Tensor) (blocks : list Layer)
    (acc acc' : Tensor * list Tensor) (g g' : Rng) :
  foldM (enc_step emb) acc blocks g = (g', Ok acc') ->
  length (snd acc') = length (snd acc) + length blocks
  /\ (blocks <> [] -> last (snd acc') = Some (fst acc')).
Proof.
  revert acc g. induction blocks as [|block blocks IH]; intros acc g Hrun.
  - injection Hrun as <- <-. split; [simpl; lia|contradiction].
  - cbn [foldM] in Hrun. unfold bind at 1 in Hrun.
    destruct (enc_step emb acc block g) as [g1 [acc1|e]] eqn:Estep; [|discriminate].
    assert (snd acc1 = snd acc ++ [fst acc1]) as Hacc1.
    { unfold enc_step, bind, ret in Estep.
      destruct ((if isinstance_UNetBlock block
                 then call_block block (fst acc) emb
                 else lift (call_layer block (Some (fst acc)))) g) as [g2 [y|e]];
        [|discriminate].
      injection Estep as <- <-. reflexivity. }
    destruct (IH acc1 g1 Hrun) as [Hlen Hlast].
    split.
    + rewrite Hlen, Hacc1, length_app. simpl. lia.
    + intros _. destruct blocks as [|b blocks].
      * injection Hrun as <- <-. rewrite Hacc1. apply last_snoc.
      * apply Hlast. discriminate.
Qed.



(** X13.  With an empty [channel_mult] the encoder loop does not run:
    when the mapping layers build, [self.enc] is empty, only the mapping
    layers are built, and the encoder section of the forward pass hands
    the image batch on unchanged. *)
Theorem empty_channel_mult_empty_encoder (c : Config) (x emb : Tensor) (g : Rng) :
  channel_mult c = [] ->
  mapping_builds c ->
  enc_table (fst (GuidanceNet c)) = []
  /\ nbuilt (fst (GuidanceNet c)) = mapping_layers c
  /\ forward_encoder (attrs (fst (GuidanceNet c))) x emb g = (g, Ok x).
Proof.
  intros Hm Hmap.
  assert (e_tbl (enc_final c) = []) as Hnil.
  { unfold enc_final, loop_enc, enumerate. rewrite Hm. reflexivity. }
  assert (layers_build c) as Hb.
  { split; [exact Hmap|].
    unfold encoder_builds, encoder_kinds, enc_built, loop_enc, enumerate.
    rewrite Hm. constructor. }
  refine (conj _ (conj _ _)).
  - rewrite (GuidanceNet_enc_table c Hb). exact Hnil.
  - rewrite (GuidanceNet_nbuilt c Hb). unfold encoder_layers. rewrite Hm. cbn [length]. lia.
  - unfold forward_encoder, getattr_.
    rewrite (GuidanceNet_attrs_before_pooling c "enc" Hb) by discriminate.
    rewrite at_pooling_enc, Hnil. reflexivity.
Qed.

End ForwardMore.

(** ** The further properties on concrete inputs *)

Lemma constructed_object_has_no_pooling_head_witness :
  layers_build (LL := strict_sizes) (IntKernels.small_config 0 0 0)
  /\ forward_pooling (FW := IntKernels.framework)
       (attrs (fst (GuidanceNet (LL := strict_sizes) (IntKernels.small_config 0 0 0))))
       IntKernels.images 7
     = (7, Raise (KeyError "linear_in"))
  /\ snd (forward (FW := IntKernels.framework)
            (attrs (fst (GuidanceNet (LL := strict_sizes) (IntKernels.small_config 0 0 0))))
            IntKernels.images IntKernels.noise None None 7)
     <> Ok IntKernels.images.
Proof.
  assert (layers_build (LL := strict_sizes) (IntKernels.small_config 0 0 0)) as Hb
    by (split; apply all_build_Forall; vm_compute; reflexivity).
  destruct (constructed_object_has_no_pooling_head (FW := IntKernels.framework)
              (LL := strict_sizes) (IntKernels.small_config 0 0 0)
              IntKernels.images IntKernels.noise IntKernels.images None None 7
              IntKernels.images Hb) as [H1 H2].
  split; [exact Hb|]. split; [exact H1|exact H2].
Defined.

Lemma forward_needs_dropout_attribute_witness :
  delete "dropout" (IntKernels.completed (IntKernels.small_config 0 0 0) false) !! "dropout"
  = None
  /\ snd (forward (FW := IntKernels.framework)
            (delete "dropout" (IntKernels.completed (IntKernels.small_config 0 0 0) false))
            IntKernels.images IntKernels.noise None None 7)
     <> Ok IntKernels.images.
Proof.
  assert (delete "dropout" (IntKernels.completed (IntKernels.small_config 0 0 0) false)
            !! "dropout" = None) as Hd by (vm_compute; reflexivity).
  split; [exact Hd|].
  exact (forward_needs_dropout_attribute (FW := IntKernels.framework) _
           IntKernels.images IntKernels.noise None None 7 IntKernels.images Hd).
Defined.

Lemma no_augment_labels_skips_projection_witness :
  IntKernels.completed (IntKernels.small_config 0 2 0) false !! "map_augment"
  = Some (VLayer {| lid := 1; kind := Linear 2 2 false init_zero |})
  /\ forward (FW := IntKernels.framework)
       (IntKernels.completed (IntKernels.small_config 0 2 0) false)
       IntKernels.images IntKernels.noise None None 7
     = forward (FW := IntKernels.framework)
         (<["map_augment" := VNone]>
            (IntKernels.completed (IntKernels.small_config 0 2 0) false))
         IntKernels.images IntKernels.noise None None 7.
Proof.
  assert (IntKernels.completed (IntKernels.small_config 0 2 0) false !! "map_augment"
          = Some (VLayer {| lid := 1; kind := Linear 2 2 false init_zero |})) as Ha
    by (vm_compute; reflexivity).
  split; [exact Ha|].
  exact (no_augment_labels_skips_projection (FW := IntKernels.framework) _ _
           IntKernels.images IntKernels.noise None 7 Ha).
Defined.

Lemma zero_label_dropout_is_evaluation_witness :
  IntKernels.completed (IntKernels.small_config 3 0 0) true !! "training" = Some (VBool true)
  /\ IntKernels.completed (IntKernels.small_config 3 0 0) true !! "label_dropout"
     = Some (VFloat 0)
  /\ (0 == 0)%Q
  /\ fst (forward_mapping (FW := IntKernels.framework)
            (IntKernels.completed (IntKernels.small_config 3 0 0) true)
            IntKernels.images IntKernels.noise (Some IntKernels.labels_a) None 7) = 7.
Proof.
  assert (IntKernels.completed (IntKernels.small_config 3 0 0) true !! "training"
          = Some (VBool true)) as Ht by (vm_compute; reflexivity).
  assert (IntKernels.completed (IntKernels.small_config 3 0 0) true !! "label_dropout"
          = Some (VFloat 0)) as Hd by (vm_compute; reflexivity).
  assert (0 == 0)%Q as Hp by reflexivity.
  split; [exact Ht|]. split; [exact Hd|]. split; [exact Hp|].
  destruct (zero_label_dropout_is_evaluation (FW := IntKernels.framework) _ 0
              IntKernels.images IntKernels.noise (Some IntKernels.labels_a) None 7
              Ht Hd Hp) as [_ H].
  exact H.
Defined.

Lemma none_labels_under_label_dropout_witness :
  IntKernels.completed (IntKernels.small_config 3 0 (1 # 2)) true !! "map_label"
  = Some (VLayer {| lid := 3; kind := Linear 3 4 false (init_label 3) |})
  /\ ~ (1 # 2 == 0)%Q
  /\ label_step (FW := IntKernels.framework)
       (IntKernels.completed (IntKernels.small_config 3 0 (1 # 2)) true)
       IntKernels.images None IntKernels.embedding 7
     = (fst (torch_rand (Framework := IntKernels.framework)
               (batch_size IntKernels.images) 7),
        Raise (AttributeError "dtype")).
Proof.
  assert (IntKernels.completed (IntKernels.small_config 3 0 (1 # 2)) true !! "map_label"
          = Some (VLayer {| lid := 3; kind := Linear 3 4 false (init_label 3) |})) as Hl
    by (vm_compute; reflexivity).
  assert (IntKernels.completed (IntKernels.small_config 3 0 (1 # 2)) true !! "training"
          = Some (VBool true)) as Ht by (vm_compute; reflexivity).
  assert (IntKernels.completed (IntKernels.small_config 3 0 (1 # 2)) true !! "label_dropout"
          = Some (VFloat (1 # 2))) as Hd by (vm_compute; reflexivity).
  assert (~ (1 # 2 == 0)%Q) as Hp by (unfold Qeq; cbn; lia).
  split; [exact Hl|]. split; [exact Hp|].
  exact (none_labels_under_label_dropout (FW := IntKernels.framework) _ _ (1 # 2)
           IntKernels.images IntKernels.embedding 7 Hl Ht Hd Hp).
Defined.

Lemma encoder_loop_records_skips_witness :
  let blocks :=
    [{| lid := 3; kind := Conv2d 2 2 3 init |};
     {| lid := 4;
        kind := UNetBlock 2 2 false false (block_kwargs (IntKernels.small_config 0 0 0)) |}] in
  let acc' : Tensor (Framework := IntKernels.framework) * list IntKernels.tensor :=
    ([[24; 24]; [32; 32]]%Z, [[[6; 6]; [10; 10]]%Z; [[24; 24]; [32; 32]]%Z]) in
  foldM (enc_step (FW := IntKernels.framework) IntKernels.embedding)
    (IntKernels.images, []) blocks 7 = (7, Ok acc')
  /\ length (snd acc') = 0 + length blocks
  /\ last (snd acc') = Some (fst acc').
Proof.
  intros blocks acc'.
  assert (foldM (enc_step (FW := IntKernels.framework) IntKernels.embedding)
            (IntKernels.images, []) blocks 7 = (7, Ok acc')) as Hrun
    by (vm_compute; reflexivity).
  destruct (encoder_loop_records_skips (FW := IntKernels.framework) IntKernels.embedding
              blocks (IntKernels.images, []) acc' 7 7 Hrun) as [Hlen Hlast].
  split; [exact Hrun|]. split; [exact Hlen|]. apply Hlast. discriminate.
Defined.


Lemma empty_channel_mult_empty_encoder_witness :
  channel_mult no_level_config = []
  /\ mapping_builds (LL := strict_sizes) no_level_config
  /\ nbuilt (fst (GuidanceNet (LL := strict_sizes) no_level_config)) = 3
  /\ forward_encoder (FW := IntKernels.framework) (attrs (fst (GuidanceNet (LL := strict_sizes) no_level_config)))
       IntKernels.images IntKernels.embedding 7
     = (7, Ok IntKernels.images).
Proof.
  assert (mapping_builds (LL := strict_sizes) no_level_config) as Hmap
    by (apply all_build_Forall; vm_compute; reflexivity).
  destruct (empty_channel_mult_empty_encoder (FW := IntKernels.framework)
              (LL := strict_sizes) no_level_config
              IntKernels.images IntKernels.embedding 7 eq_refl Hmap) as (_ & Hn & Henc).
  split; [reflexivity|]. split; [exact Hmap|]. split; [exact Hn|exact Henc].
Defined.

(** ** What a construction assigns, and in which order stages land *)

(** X14.  Whatever the configuration and the layer library, a
    construction assigns none of [dropout], [_feature_size],
    [out_channels] and [img_resolution]: the first is read by the forward
    pass, the next two by the pooling section of the constructor itself,
    and the last is an argument that is used and not kept. *)
Theorem construction_never_assigns `{LL : LayerLibrary} (c : Config) :
  attrs (fst (GuidanceNet c)) !! "dropout" = None
  /\ attrs (fst (GuidanceNet c)) !! "_feature_size" = None
  /\ attrs (fst (GuidanceNet c)) !! "out_channels" = None
  /\ attrs (fst (GuidanceNet c)) !! "img_resolution" = None.
Proof.
  unfold GuidanceNet.
  repeat split;
    (rewrite construct_never_assigns;
     [apply lookup_empty|unfold assigned_before_pooling; not_among]).
Qed.

(** X15.  For every configuration the stages compose in the order they are
    built (each takes the channel count the one built before it puts out)
    and their keys are [stage_keys]; when the mapping and encoder layers
    build, [self.enc] is what assigning the stages in that order leaves: a
    stage whose key is already present takes the place of the earlier
    one. *)
Theorem built_stages_compose `{LL : LayerLibrary} (c : Config) :
  layers_build c ->
  composes (md_values (e_tbl (enc_built c))) = true
  /\ md_keys (e_tbl (enc_built c)) = stage_keys c
  /\ enc_table (fst (GuidanceNet c)) = md_of_list (e_tbl (enc_built c)) [].
Proof.
  intros Hb. refine (conj _ (conj _ _)).
  - unfold enc_built, loop_enc. apply loop_levels_chained.
    split; [reflexivity|]. simpl. discriminate.
  - unfold enc_built, loop_enc. rewrite loop_levels_keys. reflexivity.
  - rewrite (GuidanceNet_enc_table c Hb). unfold enc_final, enc_built.
    destruct (loop_enc_md_of_list c
                {| e_tbl := []; e_cout := in_channels c; e_n := mapping_layers c |} eq_refl)
      as (_ & _ & Ht).
    exact Ht.
Qed.

Lemma built_stages_compose_witness :
  layers_build (LL := strict_sizes) (default_config 2 2 2)
  /\ enc_table (fst (GuidanceNet (LL := strict_sizes) (default_config 2 2 2)))
     = md_of_list (e_tbl (enc_built (default_config 2 2 2))) [].
Proof.
  assert (layers_build (LL := strict_sizes) (default_config 2 2 2)) as Hb
    by (split; apply all_build_Forall; vm_compute; reflexivity).
  split; [exact Hb|].
  destruct (built_stages_compose (LL := strict_sizes) (default_config 2 2 2) Hb)
    as (_ & _ & H).
  exact H.
Defined.

(** X16.  Every construction ends in one of three ways.  When a constructor
    call of the mapping or encoder section is turned down, the construction
    raises what the first such call raises, with exactly the layers before
    it built and [self.out] not assigned, whatever the pooling mode.  When
    they all build, the construction raises at the pooling section, after
    all of them: AttributeError on [self._feature_size] in "spatial" mode,
    NotImplementedError in any other. *)
Theorem construction_ends_in_one_of_three_ways `{LL : LayerLibrary} (c : Config) :
  match first_error (constructor_kinds c) with
  | Some (i, e) =>
      snd (GuidanceNet c) = Raise e
      /\ nbuilt (fst (GuidanceNet c)) = i
      /\ i < mapping_layers c + encoder_layers c
      /\ attrs (fst (GuidanceNet c)) !! "out" = None
  | None =>
      snd (GuidanceNet c)
      = Raise (if String.eqb (pool c) "spatial" then AttributeError "_feature_size"
               else NotImplementedError ("Unexpected " +:+ pool c +:+ " pooling"))
      /\ nbuilt (fst (GuidanceNet c)) = mapping_layers c + encoder_layers c
  end.
Proof.
  destruct (first_error (constructor_kinds c)) as [[i e]|] eqn:E.
  - destruct (GuidanceNet_first_error c i e E) as (H1 & H2 & H3).
    refine (conj H1 (conj H2 (conj _ H3))).
    apply first_error_lt in E. rewrite constructor_kinds_length in E. exact E.
  - apply layers_build_first_error in E.
    split; [|apply GuidanceNet_nbuilt, E].
    rewrite (GuidanceNet_run c E). destruct (String.eqb (pool c) "spatial"); reflexivity.
Qed.

Example construction_ends_zero_multiplier :
  first_error (LL := strict_sizes) (constructor_kinds zero_mult_config)
  = Some (6, ZeroDivisionError)
  /\ mapping_layers zero_mult_config + encoder_layers zero_mult_config = 7.
Proof. vm_compute. repeat split. Qed.
